(** * TimeCtlGUI: the latency / tail-time control widget of gtk2_ardour

    A shallow embedding of [gtk2_ardour/timectl_gui.cc].

    Conventions of the embedding.
    - [samplepos_t] and [samplecnt_t] are [int64_t]; they are modelled by [Z].
      The only arithmetic the widget performs on them is [std::min] and the
      product [20 * sample_rate] ([int64_mul]); [in_int64] states that the
      product does not leave [int64_t].
    - A [double] or [float] is modelled by the rational [Q] it denotes.  The
      arithmetic of the source rounds: a conversion from [int64_t], a
      quotient, a sum or a difference is the exact result rounded to the
      nearest number of the format, ties to even ([binary64] for [double],
      [binary32] for [float]).  The exponent range of the formats, infinities
      and NaN are not modelled; no operation of the widget on sample counts
      and values within the bounds of the adjustment leaves the range.
    - The external objects ([ARDOUR::Latent], [ARDOUR::TailTime]) are opaque
      collaborators: the widget only sees the four member functions it calls,
      which form the classes [Latent] and [TailTime] below.  The widget holds
      a pointer to one of them; the record field holds the pointee's state.
      Signals that the external object may emit when it is changed are not
      followed.
    - [abort()] is modelled by the [Aborts] outcome. *)

From Stdlib Require Import ZArith QArith Qround Qpower String List Lia Lqa.
Import ListNotations.

Local Open Scope Z_scope.
Local Open Scope string_scope.

Definition samplepos_t := Z.
Definition samplecnt_t := Z.
Definition double := Q.

Definition INT64_MIN : Z := -9223372036854775808.
Definition INT64_MAX : Z := 9223372036854775807.

(** The integers an [int64_t] holds. *)
Definition in_int64 (z : Z) : Prop := INT64_MIN <= z <= INT64_MAX.

(** The product of two [int64_t].  Signed overflow is undefined in the source;
    the machine yields the two's complement representative of the product,
    which is the product itself where that is an [int64_t].  What is proved
    about the bounds of a [TailTime] widget assumes the latter. *)
Definition wrap_int64 (z : Z) : Z := (z + 2 ^ 63) mod 2 ^ 64 - 2 ^ 63.

Definition int64_mul (a b : Z) : Z := wrap_int64 (a * b).

(** ** Floating-point arithmetic *)

Module FloatingPoint.

(** The exponent of the binade of a positive rational: the [e] with
    [2 ^ e <= x < 2 ^ (e + 1)]. *)
Definition ilog2 (x : Q) : Z :=
  let k := Z.log2 (Qnum x) - Z.log2 (Z.pos (Qden x)) in
  if Qle_bool (2 ^ k) x then k else k - 1.

(** The integer nearest to [y], the even one of two that are equally near. *)
Definition round_half_even (y : Q) : Z :=
  let f := Qfloor y in
  match (y - inject_Z f ?= 1 # 2)%Q with
  | Lt => f
  | Gt => f + 1
  | Eq => if Z.even f then f else f + 1
  end.

(** A positive [x] rounded to [prec] significant bits. *)
Definition round_positive (prec : Z) (x : Q) : Q :=
  let e := ilog2 x - (prec - 1) in
  (inject_Z (round_half_even (x / 2 ^ e)) * 2 ^ e)%Q.

(** Rounding to the nearest number with [prec] significant bits, ties to
    even. *)
Definition round_nearest_even (prec : Z) (x : Q) : Q :=
  match (x ?= 0)%Q with
  | Eq => 0%Q
  | Gt => round_positive prec x
  | Lt => (- round_positive prec (- x))%Q
  end.

(** The significands of [double] and [float] have 53 and 24 bits. *)
Definition binary64 : Q -> Q := round_nearest_even 53.
Definition binary32 : Q -> Q := round_nearest_even 24.

End FloatingPoint.

(** The rationals that are [double]s. *)
Definition is_double (x : Q) : Prop := (FloatingPoint.binary64 x == x)%Q.

(** Conversion [(double) n] of a sample count. *)
Definition double_of_samples (n : Z) : double :=
  FloatingPoint.binary64 (inject_Z n).

(** Conversion of a sample count to [float], as in [sample_rate / 1000.f]. *)
Definition float_of_samples (n : Z) : Q :=
  FloatingPoint.binary32 (inject_Z n).

(** [x + y], [x - y] and [x / y] on [double]s. *)
Definition double_add (x y : double) : double :=
  FloatingPoint.binary64 (x + y).

Definition double_sub (x y : double) : double :=
  FloatingPoint.binary64 (x - y).

Definition double_div (x y : double) : double :=
  FloatingPoint.binary64 (x / y).

(** [x / y] on [float]s; the quotient becomes a [double] without change when
    it is passed on. *)
Definition float_div (x y : Q) : double :=
  FloatingPoint.binary32 (x / y).

(** Conversion [(samplepos_t) d]: truncation toward zero. *)
Definition samplepos_of_double (d : double) : samplepos_t :=
  Z.quot (Qnum d) (Z.pos (Qden d)).

(** ** Outcomes: a call returns, or the process is aborted after a fatal
    message has been logged. *)

Record fatal_message := {
  fatal_format : string;   (* the translated format given to string_compose *)
  fatal_arg1 : string;     (* %1 *)
  fatal_arg2 : string      (* %2 *)
}.

Inductive outcome (A : Type) : Type :=
| Returns (a : A)
| Aborts (msg : fatal_message).
Arguments Returns {A} a.
Arguments Aborts {A} msg.

(** ** The adjustment *)

Module Adjustment.

Record t := {
  value : double;
  lower : double;
  upper : double;
  step_increment : double;
  page_increment : double;
  page_size : double
}.

(** [Gtk::Adjustment (value, lower, upper, step_increment = 1,
    page_increment = 10, page_size = 0)]. *)
Definition make (v lo up step page psz : double) : t :=
  {| value := v; lower := lo; upper := up;
     step_increment := step; page_increment := page; page_size := psz |}.

Definition with_value (v : double) (a : t) : t :=
  {| value := v; lower := lower a; upper := upper a;
     step_increment := step_increment a;
     page_increment := page_increment a; page_size := page_size a |}.

Definition Qgt_bool (x y : Q) : bool :=
  match (x ?= y)%Q with Gt => true | _ => false end.

Definition Qlt_bool (x y : Q) : bool :=
  match (x ?= y)%Q with Lt => true | _ => false end.

(** Modelled from the spec: the toolkit's [Adjustment::set_value] is not part
    of the sources; the spec describes the adjustment as a value with a lower
    and an upper bound that the value never exceeds.  The new value is
    brought into [[lower, upper]] in the manner of the toolkit's [CLAMP]
    macro: [x > high ? high : (x < low ? low : x)]. *)
Definition CLAMP (x low high : double) : double :=
  if Qgt_bool x high then high
  else if Qlt_bool x low then low
  else x.

End Adjustment.

(** ** The external collaborators *)

(** The member functions of [ARDOUR::Latent] that the widget calls. *)
Class Latent (L : Type) : Type := {
  signal_latency : L -> samplecnt_t;
  effective_latency : L -> samplecnt_t;
  set_user_latency : samplecnt_t -> L -> L;
  unset_user_latency : L -> L
}.

(** The member functions of [ARDOUR::TailTime] that the widget calls. *)
Class TailTime (T : Type) : Type := {
  signal_tailtime : T -> samplecnt_t;
  effective_tailtime : T -> samplecnt_t;
  set_user_tailtime : samplecnt_t -> T -> T;
  unset_user_tailtime : T -> T
}.

(** [ARDOUR::RCConfiguration], as far as the widget reads it. *)
Record RCConfiguration := {
  get_max_tail_samples : samplecnt_t
}.

(** The slots that can be connected to [adjustment.signal_value_changed()]. *)
Inductive slot := slot_finish.

(** ** The unit strings *)

Definition _unit_strings : list string := ["sample"; "msec"; "period"].

Section TimeCtlGUI.

Context {L T : Type} {latent_ops : Latent L} {tailtime_ops : TailTime T}.

(** The global configuration object [Config]. *)
Variable Config : RCConfiguration.

(** The message catalogue: [_()], and [I18N] on a table of strings. *)
Variable gettext : string -> string.

Definition I18N (table : list string) : list string := map gettext table.

(** The static [TimeCtlGUI::unit_strings]; it is filled by the first [init]
    and never changed afterwards. *)
Definition unit_strings : list string := I18N _unit_strings.

Record TimeCtlGUI := {
  _latent : option L;
  _tailtime : option T;
  sample_rate : samplepos_t;
  period_size : samplepos_t;
  _ignore_change : bool;
  adjustment : Adjustment.t;
  units_combo : string;               (* the active text of the combo *)
  value_changed_slots : list slot     (* adjustment.signal_value_changed() *)
}.

Definition set_latent (l : option L) (g : TimeCtlGUI) : TimeCtlGUI :=
  {| _latent := l; _tailtime := _tailtime g;
     sample_rate := sample_rate g; period_size := period_size g;
     _ignore_change := _ignore_change g; adjustment := adjustment g;
     units_combo := units_combo g;
     value_changed_slots := value_changed_slots g |}.

Definition set_tailtime (t : option T) (g : TimeCtlGUI) : TimeCtlGUI :=
  {| _latent := _latent g; _tailtime := t;
     sample_rate := sample_rate g; period_size := period_size g;
     _ignore_change := _ignore_change g; adjustment := adjustment g;
     units_combo := units_combo g;
     value_changed_slots := value_changed_slots g |}.

Definition set_ignore_change (b : bool) (g : TimeCtlGUI) : TimeCtlGUI :=
  {| _latent := _latent g; _tailtime := _tailtime g;
     sample_rate := sample_rate g; period_size := period_size g;
     _ignore_change := b; adjustment := adjustment g;
     units_combo := units_combo g;
     value_changed_slots := value_changed_slots g |}.

Definition set_adjustment (a : Adjustment.t) (g : TimeCtlGUI) : TimeCtlGUI :=
  {| _latent := _latent g; _tailtime := _tailtime g;
     sample_rate := sample_rate g; period_size := period_size g;
     _ignore_change := _ignore_change g; adjustment := a;
     units_combo := units_combo g;
     value_changed_slots := value_changed_slots g |}.

Definition set_active_text (s : string) (g : TimeCtlGUI) : TimeCtlGUI :=
  {| _latent := _latent g; _tailtime := _tailtime g;
     sample_rate := sample_rate g; period_size := period_size g;
     _ignore_change := _ignore_change g; adjustment := adjustment g;
     units_combo := s;
     value_changed_slots := value_changed_slots g |}.

Definition connect_value_changed (s : slot) (g : TimeCtlGUI) : TimeCtlGUI :=
  {| _latent := _latent g; _tailtime := _tailtime g;
     sample_rate := sample_rate g; period_size := period_size g;
     _ignore_change := _ignore_change g; adjustment := adjustment g;
     units_combo := units_combo g;
     value_changed_slots := value_changed_slots g ++ [s] |}.

(** [TimeCtlGUI::finish] *)
Definition finish (g : TimeCtlGUI) : TimeCtlGUI :=
  if _ignore_change g then g
  else
    let new_value := samplepos_of_double (Adjustment.value (adjustment g)) in
    match _latent g with
    | Some l => set_latent (Some (set_user_latency new_value l)) g
    | None =>
        match _tailtime g with
        | Some t => set_tailtime (Some (set_user_tailtime new_value t)) g
        | None => g
        end
    end.

Definition run_slot (s : slot) (g : TimeCtlGUI) : TimeCtlGUI :=
  match s with
  | slot_finish => finish g
  end.

(** Emission of [signal_value_changed]: the connected slots run in the order
    of their connection. *)
Definition emit_value_changed (g : TimeCtlGUI) : TimeCtlGUI :=
  fold_left (fun g' s => run_slot s g') (value_changed_slots g) g.

(** Modelled from the spec: [adjustment.set_value (v)], the toolkit's
    [Adjustment::set_value], is not part of the sources.  The value is
    limited to the bounds of the adjustment, and "value changed" is signalled
    when the stored value changes. *)
Definition adjustment_set_value (v : double) (g : TimeCtlGUI) : TimeCtlGUI :=
  let a := adjustment g in
  let v' := Adjustment.CLAMP v (Adjustment.lower a) (Adjustment.upper a) in
  if Qeq_bool v' (Adjustment.value a) then g
  else emit_value_changed (set_adjustment (Adjustment.with_value v' a) g).

(** [PBD::Unwinder<bool> uw (_ignore_change, new_val)] around [body]: the
    variable takes [new_val] for the extent of the scope and gets its old
    value back when the scope is left. *)
Definition Unwinder (new_val : bool) (body : TimeCtlGUI -> TimeCtlGUI)
    (g : TimeCtlGUI) : TimeCtlGUI :=
  let old_val := _ignore_change g in
  set_ignore_change old_val (body (set_ignore_change new_val g)).

(** [TimeCtlGUI::reset] *)
Definition reset (g : TimeCtlGUI) : TimeCtlGUI :=
  match _latent g with
  | Some l =>
      let l' := unset_user_latency l in
      Unwinder true
        (adjustment_set_value
           (double_of_samples (Z.min (sample_rate g) (signal_latency l'))))
        (set_latent (Some l') g)
  | None =>
      match _tailtime g with
      | Some t =>
          let t' := unset_user_tailtime t in
          Unwinder true
            (adjustment_set_value
               (double_of_samples
                  (Z.min (get_max_tail_samples Config) (signal_tailtime t'))))
            (set_tailtime (Some t') g)
      | None => g
      end
  end.

(** [TimeCtlGUI::refresh] *)
Definition refresh (g : TimeCtlGUI) : TimeCtlGUI :=
  Unwinder true
    (fun g' =>
       match _latent g' with
       | Some l =>
           adjustment_set_value
             (double_of_samples (Z.min (sample_rate g') (effective_latency l)))
             g'
       | None =>
           match _tailtime g' with
           | Some t =>
               adjustment_set_value
                 (double_of_samples
                    (Z.min (get_max_tail_samples Config)
                       (effective_tailtime t)))
                 g'
           | None => g'
           end
       end)
    g.

(** The amount by which a button moves the value, as [change_from_button]
    computes it from the active text of the combo; [None] on the branch that
    ends in [abort()]. *)
Definition shift_of_unit (sr psz : samplepos_t) (unitstr : string)
    : option double :=
  if (unitstr =? nth 0 unit_strings "")%string then Some 1%Q
  else if (unitstr =? nth 1 unit_strings "")%string then
    Some (double_div (double_of_samples sr) 1000%Q)
  else if (unitstr =? nth 2 unit_strings "")%string then
    Some (double_of_samples psz)
  else None.

(** [TimeCtlGUI::change_from_button] *)
Definition change_from_button (dir : Z) (g : TimeCtlGUI)
    : outcome TimeCtlGUI :=
  let unitstr := units_combo g in
  match shift_of_unit (sample_rate g) (period_size g) unitstr with
  | None =>
      Aborts {| fatal_format := gettext "programming error: %1 (%2)";
                fatal_arg1 := "illegal string in latency GUI units combo";
                fatal_arg2 := unitstr |}
  | Some shift =>
      let v := Adjustment.value (adjustment g) in
      if (0 <? dir)%Z
      then Returns (adjustment_set_value (double_add v shift) g)
      else Returns (adjustment_set_value (double_sub v shift) g)
  end.

(** [TimeCtlGUI::init], as far as it touches the state of the model: the
    active unit, the initial value and the connection of [finish]. *)
Definition init (g : TimeCtlGUI) : TimeCtlGUI :=
  let g1 := set_active_text (hd "" unit_strings) g in
  let g2 :=
    match _latent g1 with
    | Some l =>
        adjustment_set_value
          (double_of_samples (Z.min (sample_rate g1) (signal_latency l))) g1
    | None =>
        match _tailtime g1 with
        | Some t =>
            adjustment_set_value
              (double_of_samples (Z.min (sample_rate g1) (signal_tailtime t)))
              g1
        | None => g1
        end
    end in
  connect_value_changed slot_finish g2.

(** [TimeCtlGUI::TimeCtlGUI (Latent& l, samplepos_t sr, samplepos_t psz)] *)
Definition TimeCtlGUI_Latent (l : L) (sr psz : samplepos_t) : TimeCtlGUI :=
  init
    {| _latent := Some l; _tailtime := None;
       sample_rate := sr; period_size := psz;
       _ignore_change := false;
       adjustment :=
         (Adjustment.make 0 0 (double_of_samples sr) 1
            (float_div (float_of_samples sr) 1000) 0)%Q;
       units_combo := "";
       value_changed_slots := [] |}.

(** [TimeCtlGUI::TimeCtlGUI (TailTime& t, samplepos_t sr, samplepos_t psz)] *)
Definition TimeCtlGUI_TailTime (t : T) (sr psz : samplepos_t) : TimeCtlGUI :=
  init
    {| _latent := None; _tailtime := Some t;
       sample_rate := sr; period_size := psz;
       _ignore_change := false;
       adjustment :=
         (Adjustment.make 0 0 (double_of_samples (int64_mul 20 sr))
            (float_div (float_of_samples sr) 1000) 1
            (float_div (float_of_samples sr) 2))%Q;
       units_combo := "";
       value_changed_slots := [] |}.

(** [TimeCtlGUIControllable] *)
Definition Controllable_set_value (v : double) (g : TimeCtlGUI) : TimeCtlGUI :=
  adjustment_set_value v g.

Definition Controllable_get_value (g : TimeCtlGUI) : double :=
  Adjustment.value (adjustment g).

Definition Controllable_lower (g : TimeCtlGUI) : double :=
  Adjustment.lower (adjustment g).

Definition Controllable_upper (g : TimeCtlGUI) : double :=
  Adjustment.upper (adjustment g).

(** The three buttons and the slots [init] connects to their [clicked]
    signals. *)
Inductive button := minus_button | plus_button | reset_button.

Definition clicked (b : button) (g : TimeCtlGUI) : outcome TimeCtlGUI :=
  match b with
  | minus_button => change_from_button (-1) g
  | plus_button => change_from_button 1 g
  | reset_button => Returns (reset g)
  end.

(** ** Sequences of operations on a constructed widget *)

Inductive event :=
| ev_finish
| ev_reset
| ev_refresh
| ev_change_from_button (dir : Z)
| ev_set_value (v : double)            (* TimeCtlGUIControllable::set_value *)
| ev_units_combo (text : string)       (* the user picks a unit *)
| ev_engine (fl : L -> L) (ft : T -> T).
  (* the engine changes the external object between two calls *)

Definition step (e : event) (g : TimeCtlGUI) : outcome TimeCtlGUI :=
  match e with
  | ev_finish => Returns (finish g)
  | ev_reset => Returns (reset g)
  | ev_refresh => Returns (refresh g)
  | ev_change_from_button dir => change_from_button dir g
  | ev_set_value v => Returns (Controllable_set_value v g)
  | ev_units_combo text => Returns (set_active_text text g)
  | ev_engine fl ft =>
      Returns (set_tailtime (option_map ft (_tailtime g))
                 (set_latent (option_map fl (_latent g)) g))
  end.

(** The states the widget goes through: one per event, up to the event that
    aborts the process, if any. *)
Fixpoint states_after (evs : list event) (g : TimeCtlGUI)
    : list TimeCtlGUI :=
  match evs with
  | [] => []
  | e :: evs' =>
      match step e g with
      | Returns g' => g' :: states_after evs' g'
      | Aborts _ => []
      end
  end.

(** ** Auxiliary definitions for the statements *)

(** [g] with other external objects and another value of the adjustment:
    the three things a run of the slots or a [set_value] may change. *)
Definition with_state (l : option L) (t : option T) (v : double)
    (g : TimeCtlGUI) : TimeCtlGUI :=
  set_tailtime t
    (set_latent l
       (set_adjustment (Adjustment.with_value v (adjustment g)) g)).

(** The value [set_value] leaves in the adjustment. *)
Definition value_set (v : double) (g : TimeCtlGUI) : double :=
  let a := adjustment g in
  let v' := Adjustment.CLAMP v (Adjustment.lower a) (Adjustment.upper a) in
  if Qeq_bool v' (Adjustment.value a) then Adjustment.value a else v'.

(** [reset] as the spec words it, for comparison with [reset]: clear the
    override, pull the effective value, suppress the feedback, set the local
    value. *)
Definition reset_as_specified (g : TimeCtlGUI) : TimeCtlGUI :=
  match _latent g with
  | Some l =>
      let l' := unset_user_latency l in
      Unwinder true
        (adjustment_set_value
           (double_of_samples (Z.min (sample_rate g) (effective_latency l'))))
        (set_latent (Some l') g)
  | None =>
      match _tailtime g with
      | Some t =>
          let t' := unset_user_tailtime t in
          Unwinder true
            (adjustment_set_value
               (double_of_samples
                  (Z.min (get_max_tail_samples Config)
                     (effective_tailtime t'))))
            (set_tailtime (Some t') g)
      | None => g
      end
  end.

(** The value of the adjustment lies between the bounds [lo] and [up] the
    adjustment was given. *)
Definition bounded_by (lo up : double) (g : TimeCtlGUI) : Prop :=
  Adjustment.lower (adjustment g) = lo /\
  Adjustment.upper (adjustment g) = up /\
  (lo <= Adjustment.value (adjustment g))%Q /\
  (Adjustment.value (adjustment g) <= up)%Q.

End TimeCtlGUI.

Arguments TimeCtlGUI : clear implicits.
Arguments event : clear implicits.

(** ** Sample collaborators

    Two implementations of the interfaces, used to evaluate the model on
    concrete inputs.  Each keeps a signal value and an optional user value that
    overrides it, and records the calls that change it.  The latency object
    also has the switch that forces its effective latency to zero. *)

Module Sample.

Inductive call :=
| call_set_user (v : samplecnt_t)
| call_unset_user.

Record latent_obj := {
  lat_signal : samplecnt_t;
  lat_user : option samplecnt_t;
  lat_zero_latency : bool;
  lat_calls : list call
}.

Definition lat_effective (o : latent_obj) : samplecnt_t :=
  if lat_zero_latency o then 0
  else match lat_user o with
       | Some u => u
       | None => lat_signal o
       end.

Definition lat_set_user (v : samplecnt_t) (o : latent_obj) : latent_obj :=
  {| lat_signal := lat_signal o; lat_user := Some v;
     lat_zero_latency := lat_zero_latency o;
     lat_calls := lat_calls o ++ [call_set_user v] |}.

Definition lat_unset_user (o : latent_obj) : latent_obj :=
  {| lat_signal := lat_signal o; lat_user := None;
     lat_zero_latency := lat_zero_latency o;
     lat_calls := lat_calls o ++ [call_unset_user] |}.

#[global] Instance latent_obj_Latent : Latent latent_obj := {
  signal_latency := lat_signal;
  effective_latency := lat_effective;
  set_user_latency := lat_set_user;
  unset_user_latency := lat_unset_user
}.

Record tail_obj := {
  tail_signal : samplecnt_t;
  tail_user : option samplecnt_t;
  tail_calls : list call
}.

Definition tail_effective (o : tail_obj) : samplecnt_t :=
  match tail_user o with
  | Some u => u
  | None => tail_signal o
  end.

Definition tail_set_user (v : samplecnt_t) (o : tail_obj) : tail_obj :=
  {| tail_signal := tail_signal o; tail_user := Some v;
     tail_calls := tail_calls o ++ [call_set_user v] |}.

Definition tail_unset_user (o : tail_obj) : tail_obj :=
  {| tail_signal := tail_signal o; tail_user := None;
     tail_calls := tail_calls o ++ [call_unset_user] |}.

#[global] Instance tail_obj_TailTime : TailTime tail_obj := {
  signal_tailtime := tail_signal;
  effective_tailtime := tail_effective;
  set_user_tailtime := tail_set_user;
  unset_user_tailtime := tail_unset_user
}.

(** The C locale: every message is its own translation. *)
Definition C_locale (s : string) : string := s.

Definition Config : RCConfiguration :=
  {| get_max_tail_samples := 4294967295 |}.

Definition a_latent : latent_obj :=
  {| lat_signal := 64; lat_user := None; lat_zero_latency := false;
     lat_calls := [] |}.

Definition a_tail : tail_obj :=
  {| tail_signal := 96000; tail_user := None; tail_calls := [] |}.

(** A latency widget and a tail-time widget at 48 kHz with periods of 1024
    samples. *)
Definition latency_gui : TimeCtlGUI latent_obj tail_obj :=
  TimeCtlGUI_Latent C_locale a_latent 48000 1024.

Definition tailtime_gui : TimeCtlGUI latent_obj tail_obj :=
  TimeCtlGUI_TailTime C_locale a_tail 48000 1024.

(** A latency object whose effective latency is forced to zero, and its
    widget. *)
Definition zero_latent : latent_obj :=
  {| lat_signal := 64; lat_user := None; lat_zero_latency := true;
     lat_calls := [] |}.

Definition zero_latency_gui : TimeCtlGUI latent_obj tail_obj :=
  TimeCtlGUI_Latent C_locale zero_latent 48000 1024.

(** Latency widgets at 44.1 kHz and at 88.2 kHz, with the millisecond unit
    chosen; their objects report the signal latencies 64 and 40. *)
Definition a_latent_40 : latent_obj :=
  {| lat_signal := 40; lat_user := None; lat_zero_latency := false;
     lat_calls := [] |}.

Definition msec_gui_44100 : TimeCtlGUI latent_obj tail_obj :=
  set_active_text "msec" (TimeCtlGUI_Latent C_locale a_latent 44100 1024).

Definition msec_gui_88200 : TimeCtlGUI latent_obj tail_obj :=
  set_active_text "msec" (TimeCtlGUI_Latent C_locale a_latent_40 88200 1024).

(** A tail-time widget at 44.1 kHz. *)
Definition tailtime_gui_44100 : TimeCtlGUI latent_obj tail_obj :=
  TimeCtlGUI_TailTime C_locale a_tail 44100 1024.

End Sample.

(** ** Auxiliary definitions for the further properties *)

Section Wiring.

Context {L T : Type}.

(** Which of the two pointers [_latent] and [_tailtime] are set. *)
Definition wraps (g : TimeCtlGUI L T) : bool * bool :=
  (match _latent g with Some _ => true | None => false end,
   match _tailtime g with Some _ => true | None => false end).

(** What the constructor fixes for the lifetime of the widget. *)
Definition wiring (g : TimeCtlGUI L T)
    : samplepos_t * samplepos_t * list slot * (bool * bool) :=
  (sample_rate g, period_size g, value_changed_slots g, wraps g).

(** The combo only offers the unit strings it was filled with: an event that
    changes the active text picks one of them. *)
Definition offers_units (gettext : string -> string) (e : event L T) : Prop :=
  match e with
  | ev_units_combo text => In text (unit_strings gettext)
  | _ => True
  end.

End Wiring.

(** * Properties *)

(** ** Rounding *)

Module FloatingPointFacts.
Import FloatingPoint.

Lemma pow2_pos e : (0 < 2 ^ e)%Q.
Proof. apply Qpower_0_lt. reflexivity. Qed.

Lemma pow2_plus a b : (2 ^ (a + b) == 2 ^ a * 2 ^ b)%Q.
Proof. apply Qpower_plus. discriminate. Qed.

Lemma pow2_le a b : a <= b -> (2 ^ a <= 2 ^ b)%Q.
Proof. intros H. apply Qpower_le_compat_l; [exact H | discriminate]. Qed.

Lemma pow2_lt_inv a b : (2 ^ a < 2 ^ b)%Q -> a < b.
Proof. intros H. apply (Qpower_lt_compat_l_inv 2); [exact H | reflexivity]. Qed.

Lemma pow2_Z n : 0 <= n -> (inject_Z (2 ^ n) == 2 ^ n)%Q.
Proof. intros H. now rewrite Zpower_Qpower. Qed.

(** [ilog2 x] is the exponent of the binade of [x]. *)
Lemma ilog2_spec x :
  (0 < x)%Q -> (2 ^ ilog2 x <= x)%Q /\ (x < 2 ^ (ilog2 x + 1))%Q.
Proof.
  intros Hx. destruct x as [a d].
  assert (Ha : 0 < a).
  { unfold Qlt in Hx; simpl in Hx. lia. }
  destruct (Z.log2_spec a Ha) as [La1 La2].
  destruct (Z.log2_spec (Z.pos d) (Pos2Z.is_pos d)) as [Ld1 Ld2].
  pose proof (Z.log2_nonneg a) as Hla.
  pose proof (Z.log2_nonneg (Z.pos d)) as Hld.
  unfold ilog2. cbn [Qnum Qden].
  set (la := Z.log2 a) in *. set (ld := Z.log2 (Z.pos d)) in *.
  set (k := la - ld).
  rewrite <- Z.add_1_r in La2, Ld2.
  assert (A1 : (2 ^ la <= inject_Z a)%Q)
    by (rewrite <- pow2_Z by lia; now rewrite <- Zle_Qle).
  assert (A2 : (inject_Z a < 2 ^ (la + 1))%Q)
    by (rewrite <- pow2_Z by lia; now rewrite <- Zlt_Qlt).
  assert (D1 : (2 ^ ld <= inject_Z (Z.pos d))%Q)
    by (rewrite <- pow2_Z by lia; now rewrite <- Zle_Qle).
  assert (D2 : (inject_Z (Z.pos d) < 2 ^ (ld + 1))%Q)
    by (rewrite <- pow2_Z by lia; now rewrite <- Zlt_Qlt).
  assert (X : ((a # d) * inject_Z (Z.pos d) == inject_Z a)%Q).
  { unfold Qeq, Qmult; simpl. lia. }
  assert (P1 : (2 ^ (k + 1) * 2 ^ ld == 2 ^ (la + 1))%Q).
  { rewrite <- pow2_plus. replace (k + 1 + ld) with (la + 1) by (unfold k; lia).
    reflexivity. }
  assert (P2 : (2 ^ (k - 1) * 2 ^ (ld + 1) == 2 ^ la)%Q).
  { rewrite <- pow2_plus. replace (k - 1 + (ld + 1)) with la by (unfold k; lia).
    reflexivity. }
  assert (P3 : (2 ^ (k - 1 + 1) == 2 ^ k)%Q)
    by (replace (k - 1 + 1) with k by lia; reflexivity).
  pose proof (pow2_pos (k + 1)) as K1. pose proof (pow2_pos (k - 1)) as K2.
  pose proof (pow2_pos ld) as K3. pose proof (pow2_pos (ld + 1)) as K4.
  set (x := (a # d)%Q) in *.
  assert (U : (x < 2 ^ (k + 1))%Q).
  { revert X P1 A2 D1 K1 K3.
    generalize (2 ^ (k + 1))%Q (2 ^ ld)%Q (2 ^ (la + 1))%Q
      (inject_Z a) (inject_Z (Z.pos d)).
    intros. nra. }
  assert (W : (2 ^ (k - 1) < x)%Q).
  { revert X P2 A1 D2 K2 K4 D1 K3.
    generalize (2 ^ (k - 1))%Q (2 ^ (ld + 1))%Q (2 ^ la)%Q (2 ^ ld)%Q
      (inject_Z a) (inject_Z (Z.pos d)).
    intros. nra. }
  destruct (Qle_bool (2 ^ k) x) eqn:B.
  - apply Qle_bool_iff in B. now split.
  - assert (B' : (x < 2 ^ k)%Q).
    { apply Qnot_le_lt. intros C. apply Qle_bool_iff in C. congruence. }
    rewrite P3. split; [now apply Qlt_le_weak | exact B'].
Qed.

Lemma ilog2_unique x e :
  (0 < x)%Q -> (2 ^ e <= x)%Q -> (x < 2 ^ (e + 1))%Q -> ilog2 x = e.
Proof.
  intros Hx H1 H2. destruct (ilog2_spec x Hx) as [S1 S2].
  assert (ilog2 x < e + 1)
    by (apply pow2_lt_inv; eapply Qle_lt_trans; eassumption).
  assert (e < ilog2 x + 1)
    by (apply pow2_lt_inv; eapply Qle_lt_trans; eassumption).
  lia.
Qed.

Lemma round_half_even_mono y1 y2 :
  (y1 <= y2)%Q -> round_half_even y1 <= round_half_even y2.
Proof.
  intros H. pose proof (Qfloor_resp_le _ _ H) as F.
  pose proof (Qfloor_le y1) as L1. pose proof (Qlt_floor y1) as U1.
  pose proof (Qfloor_le y2) as L2. pose proof (Qlt_floor y2) as U2.
  unfold round_half_even.
  apply Z.le_lteq in F. destruct F as [F | F].
  - destruct (_ ?= _)%Q; destruct (_ ?= _)%Q;
      repeat match goal with |- context [Z.even ?f] => destruct (Z.even f) end;
      lia.
  - rewrite <- F in *.
    destruct (Qcompare_spec (y1 - inject_Z (Qfloor y1)) (1 # 2)) as [C1|C1|C1];
      destruct (Qcompare_spec (y2 - inject_Z (Qfloor y1)) (1 # 2)) as [C2|C2|C2];
      try (exfalso; lra);
      repeat match goal with |- context [Z.even ?f] => destruct (Z.even f) end;
      lia.
Qed.

Lemma round_half_even_Z y n : (y == inject_Z n)%Q -> round_half_even y = n.
Proof.
  assert (E : round_half_even (inject_Z n) = n).
  { unfold round_half_even. rewrite Qfloor_Z.
    destruct (Qcompare_spec (inject_Z n - inject_Z n) (1 # 2)) as [C|C|C];
      [exfalso; lra | reflexivity | exfalso; lra]. }
  intros H. apply Z.le_antisymm.
  - apply Z.le_trans with (round_half_even (inject_Z n)); [|now rewrite E].
    apply round_half_even_mono. rewrite H. apply Qle_refl.
  - apply Z.le_trans with (round_half_even (inject_Z n)); [now rewrite E|].
    apply round_half_even_mono. rewrite H. apply Qle_refl.
Qed.

Section Precision.

Variable prec : Z.
Hypothesis prec_pos : 1 <= prec.

Lemma scaled_range x :
  (0 < x)%Q ->
  let e := ilog2 x - (prec - 1) in
  (2 ^ (prec - 1) <= x / 2 ^ e)%Q /\ (x / 2 ^ e < 2 ^ prec)%Q.
Proof.
  intros Hx e. destruct (ilog2_spec x Hx) as [S1 S2].
  pose proof (pow2_pos e) as E.
  assert (P1 : (2 ^ ilog2 x == 2 ^ (prec - 1) * 2 ^ e)%Q).
  { rewrite <- pow2_plus. replace (prec - 1 + e) with (ilog2 x) by (unfold e; lia).
    reflexivity. }
  assert (P2 : (2 ^ (ilog2 x + 1) == 2 ^ prec * 2 ^ e)%Q).
  { rewrite <- pow2_plus. replace (prec + e) with (ilog2 x + 1) by (unfold e; lia).
    reflexivity. }
  assert (Y : (x / 2 ^ e * 2 ^ e == x)%Q).
  { field. intros C. rewrite C in E. discriminate. }
  rewrite P1 in S1. rewrite P2 in S2.
  revert Y S1 S2 E.
  generalize (x / 2 ^ e)%Q (2 ^ e)%Q (2 ^ (prec - 1))%Q (2 ^ prec)%Q.
  intros y E' P Pp Y S1 S2 E. split; nra.
Qed.

Lemma round_positive_range x :
  (0 < x)%Q ->
  (2 ^ ilog2 x <= round_positive prec x)%Q /\
  (round_positive prec x <= 2 ^ (ilog2 x + 1))%Q.
Proof.
  intros Hx. destruct (scaled_range x Hx) as [S1 S2].
  unfold round_positive. set (e := ilog2 x - (prec - 1)) in *.
  set (y := (x / 2 ^ e)%Q) in *.
  pose proof (pow2_pos e) as E.
  assert (M1 : 2 ^ (prec - 1) <= round_half_even y).
  { rewrite <- (round_half_even_Z (inject_Z (2 ^ (prec - 1))) _ (Qeq_refl _)).
    apply round_half_even_mono. rewrite pow2_Z by lia. exact S1. }
  assert (M2 : round_half_even y <= 2 ^ prec).
  { rewrite <- (round_half_even_Z (inject_Z (2 ^ prec)) _ (Qeq_refl _)).
    apply round_half_even_mono. rewrite pow2_Z by lia.
    now apply Qlt_le_weak. }
  rewrite Zle_Qle in M1, M2. rewrite pow2_Z in M1, M2 by lia.
  assert (P1 : (2 ^ ilog2 x == 2 ^ (prec - 1) * 2 ^ e)%Q).
  { rewrite <- pow2_plus. replace (prec - 1 + e) with (ilog2 x) by (unfold e; lia).
    reflexivity. }
  assert (P2 : (2 ^ (ilog2 x + 1) == 2 ^ prec * 2 ^ e)%Q).
  { rewrite <- pow2_plus. replace (prec + e) with (ilog2 x + 1) by (unfold e; lia).
    reflexivity. }
  rewrite P1, P2.
  revert M1 M2 E.
  generalize (inject_Z (round_half_even y)) (2 ^ e)%Q (2 ^ (prec - 1))%Q
    (2 ^ prec)%Q.
  intros. split; nra.
Qed.

Lemma round_positive_pos x : (0 < x)%Q -> (0 < round_positive prec x)%Q.
Proof.
  intros Hx. destruct (round_positive_range x Hx) as [R _].
  eapply Qlt_le_trans; [apply pow2_pos | exact R].
Qed.

Lemma ilog2_mono x y : (0 < x)%Q -> (x <= y)%Q -> ilog2 x <= ilog2 y.
Proof.
  intros Hx Hxy.
  assert (Hy : (0 < y)%Q) by (eapply Qlt_le_trans; eassumption).
  destruct (ilog2_spec x Hx) as [X1 _]. destruct (ilog2_spec y Hy) as [_ Y2].
  assert (ilog2 x < ilog2 y + 1); [|lia].
  apply pow2_lt_inv. eapply Qle_lt_trans; [exact X1|].
  eapply Qle_lt_trans; eassumption.
Qed.

Lemma round_positive_mono x y :
  (0 < x)%Q -> (x <= y)%Q ->
  (round_positive prec x <= round_positive prec y)%Q.
Proof.
  intros Hx Hxy.
  assert (Hy : (0 < y)%Q) by (eapply Qlt_le_trans; eassumption).
  pose proof (ilog2_mono x y Hx Hxy) as M.
  apply Z.le_lteq in M. destruct M as [M | M].
  - destruct (round_positive_range x Hx) as [_ X2].
    destruct (round_positive_range y Hy) as [Y1 _].
    eapply Qle_trans; [exact X2|]. eapply Qle_trans; [|exact Y1].
    apply pow2_le. lia.
  - unfold round_positive. rewrite <- M.
    set (e := ilog2 x - (prec - 1)). pose proof (pow2_pos e) as E.
    assert (S : (x / 2 ^ e <= y / 2 ^ e)%Q).
    { apply Qmult_le_compat_r; [exact Hxy|].
      apply Qlt_le_weak, Qinv_lt_0_compat, E. }
    apply round_half_even_mono in S. rewrite Zle_Qle in S.
    apply Qmult_le_compat_r; [exact S | now apply Qlt_le_weak].
Qed.

Lemma round_nearest_even_mono x y :
  (x <= y)%Q -> (round_nearest_even prec x <= round_nearest_even prec y)%Q.
Proof.
  intros Hxy. unfold round_nearest_even.
  destruct (Qcompare_spec x 0) as [X|X|X];
    destruct (Qcompare_spec y 0) as [Y|Y|Y]; try (exfalso; lra).
  - apply Qle_refl.
  - apply Qlt_le_weak, round_positive_pos, Y.
  - assert (P : (0 < - x)%Q) by lra.
    pose proof (round_positive_pos _ P). lra.
  - assert (P : (0 < - y)%Q) by lra.
    assert (Q : (- y <= - x)%Q) by lra.
    pose proof (round_positive_mono _ _ P Q). lra.
  - assert (P : (0 < - x)%Q) by lra.
    pose proof (round_positive_pos _ P). pose proof (round_positive_pos _ Y).
    lra.
  - now apply round_positive_mono.
Qed.

Lemma round_nearest_even_nonneg x :
  (0 <= x)%Q -> (0 <= round_nearest_even prec x)%Q.
Proof.
  intros Hx. change 0%Q with (round_nearest_even prec 0) at 1.
  now apply round_nearest_even_mono.
Qed.

Lemma round_nearest_even_comp x y :
  (x == y)%Q -> (round_nearest_even prec x == round_nearest_even prec y)%Q.
Proof.
  intros H. apply Qle_antisym; apply round_nearest_even_mono; rewrite H;
    apply Qle_refl.
Qed.

(** A number with at most [prec] significant bits is left as it is. *)
Lemma round_positive_exact x m e :
  0 < m < 2 ^ prec -> (x == inject_Z m * 2 ^ e)%Q ->
  (round_positive prec x == x)%Q.
Proof.
  intros Hm Hx.
  destruct (Z.log2_spec m (proj1 Hm)) as [L1 L2].
  pose proof (Z.log2_nonneg m) as L0.
  set (l := Z.log2 m) in *. rewrite <- Z.add_1_r in L2.
  assert (Ll : l < prec).
  { apply (Z.pow_lt_mono_r_iff 2); lia. }
  pose proof (pow2_pos e) as E.
  assert (M1 : (2 ^ l <= inject_Z m)%Q)
    by (rewrite <- pow2_Z by lia; now rewrite <- Zle_Qle).
  assert (M2 : (inject_Z m < 2 ^ (l + 1))%Q)
    by (rewrite <- pow2_Z by lia; now rewrite <- Zlt_Qlt).
  assert (Pos : (0 < x)%Q).
  { rewrite Hx. pose proof (pow2_pos l). nra. }
  assert (I : ilog2 x = l + e).
  { apply ilog2_unique; [exact Pos | |].
    - rewrite Hx, pow2_plus. nra.
    - rewrite Hx. replace (l + e + 1) with (l + 1 + e) by lia.
      rewrite pow2_plus. nra. }
  unfold round_positive. rewrite I.
  set (e0 := l + e - (prec - 1)).
  set (d := prec - 1 - l).
  assert (D : (2 ^ e == 2 ^ d * 2 ^ e0)%Q).
  { rewrite <- pow2_plus. replace (d + e0) with e by (unfold d, e0; lia).
    reflexivity. }
  pose proof (pow2_pos e0) as E0.
  assert (S : (x / 2 ^ e0 == inject_Z (m * 2 ^ d))%Q).
  { rewrite inject_Z_mult, pow2_Z by (unfold d; lia). rewrite Hx, D.
    field. intros C. rewrite C in E0. discriminate. }
  rewrite (round_half_even_Z _ _ S).
  rewrite inject_Z_mult, pow2_Z by (unfold d; lia).
  rewrite Hx, D. ring.
Qed.

Lemma round_nearest_even_Z n :
  0 <= n <= 2 ^ prec ->
  (round_nearest_even prec (inject_Z n) == inject_Z n)%Q.
Proof.
  intros Hn. unfold round_nearest_even.
  destruct (Qcompare_spec (inject_Z n) 0) as [C|C|C].
  - now rewrite C.
  - exfalso. change 0%Q with (inject_Z 0) in C. rewrite <- Zlt_Qlt in C. lia.
  - change 0%Q with (inject_Z 0) in C. rewrite <- Zlt_Qlt in C.
    destruct (Z.eq_dec n (2 ^ prec)) as [-> | N].
    + apply (round_positive_exact _ 1 prec).
      * split; [lia|]. apply Z.pow_gt_1; lia.
      * rewrite pow2_Z by lia. ring.
    + apply (round_positive_exact _ n 0); [lia|].
      change (2 ^ 0)%Q with 1%Q. ring.
Qed.

End Precision.

End FloatingPointFacts.

(** ** The conversions and the operations on [double]s *)

Lemma binary64_mono x y :
  (x <= y)%Q -> (FloatingPoint.binary64 x <= FloatingPoint.binary64 y)%Q.
Proof. apply FloatingPointFacts.round_nearest_even_mono. lia. Qed.

Lemma binary32_mono x y :
  (x <= y)%Q -> (FloatingPoint.binary32 x <= FloatingPoint.binary32 y)%Q.
Proof. apply FloatingPointFacts.round_nearest_even_mono. lia. Qed.

Lemma binary64_nonneg x : (0 <= x)%Q -> (0 <= FloatingPoint.binary64 x)%Q.
Proof. apply FloatingPointFacts.round_nearest_even_nonneg. lia. Qed.

Lemma binary32_nonneg x : (0 <= x)%Q -> (0 <= FloatingPoint.binary32 x)%Q.
Proof. apply FloatingPointFacts.round_nearest_even_nonneg. lia. Qed.

Lemma inject_Z_nonneg n : 0 <= n -> (0 <= inject_Z n)%Q.
Proof. intros Hn. change 0%Q with (inject_Z 0). now rewrite <- Zle_Qle. Qed.

Lemma double_of_samples_nonneg n : 0 <= n -> (0 <= double_of_samples n)%Q.
Proof. intros Hn. apply binary64_nonneg, inject_Z_nonneg, Hn. Qed.

Lemma double_of_samples_le a b : a <= b ->
  (double_of_samples a <= double_of_samples b)%Q.
Proof. intros Hab. apply binary64_mono. now rewrite <- Zle_Qle. Qed.

Lemma int64_mul_in_range a b : in_int64 (a * b) -> int64_mul a b = a * b.
Proof.
  unfold in_int64, INT64_MIN, INT64_MAX, int64_mul, wrap_int64. intros H.
  rewrite Z.mod_small; lia.
Qed.

(** A sample count of at most 53 bits is converted without rounding. *)
Lemma double_of_samples_exact n :
  0 <= n <= 2 ^ 53 -> (double_of_samples n == inject_Z n)%Q.
Proof. apply FloatingPointFacts.round_nearest_even_Z. lia. Qed.

Lemma float_of_samples_exact n :
  0 <= n <= 2 ^ 24 -> (float_of_samples n == inject_Z n)%Q.
Proof. apply FloatingPointFacts.round_nearest_even_Z. lia. Qed.

Lemma double_add_mono x y y' :
  (y <= y')%Q -> (double_add x y <= double_add x y')%Q.
Proof. intros H. apply binary64_mono. lra. Qed.

Lemma double_sub_mono x y y' :
  (y <= y')%Q -> (double_sub x y' <= double_sub x y)%Q.
Proof. intros H. apply binary64_mono. lra. Qed.

Lemma double_add_0 x : is_double x -> (double_add x 0 == x)%Q.
Proof.
  intros Hx. unfold double_add.
  rewrite (FloatingPointFacts.round_nearest_even_comp 53 ltac:(lia) (x + 0) x)
    by ring.
  exact Hx.
Qed.

Lemma double_sub_0 x : is_double x -> (double_sub x 0 == x)%Q.
Proof.
  intros Hx. unfold double_sub.
  rewrite (FloatingPointFacts.round_nearest_even_comp 53 ltac:(lia) (x - 0) x)
    by ring.
  exact Hx.
Qed.

(** ** The bounds of an adjustment *)

Module AdjustmentFacts.
Import Adjustment.

Lemma Qgt_bool_true x y : Qgt_bool x y = true <-> (y < x)%Q.
Proof.
  unfold Qgt_bool. rewrite Qgt_alt.
  destruct (x ?= y)%Q; split; congruence.
Qed.

Lemma Qgt_bool_false x y : Qgt_bool x y = false <-> (x <= y)%Q.
Proof.
  unfold Qgt_bool. rewrite Qle_alt.
  destruct (x ?= y)%Q; split; congruence.
Qed.

Lemma Qlt_bool_false x y : Qlt_bool x y = false <-> (y <= x)%Q.
Proof.
  unfold Qlt_bool. rewrite Qle_alt, <- (Qcompare_antisym x y).
  destruct (x ?= y)%Q; simpl; split; congruence.
Qed.

Lemma CLAMP_bounds x low high :
  (low <= high)%Q -> (low <= CLAMP x low high)%Q /\ (CLAMP x low high <= high)%Q.
Proof.
  intros Hlh. unfold CLAMP.
  destruct (Qgt_bool x high) eqn:Hgt.
  - split; [assumption | apply Qle_refl].
  - apply Qgt_bool_false in Hgt.
    destruct (Qlt_bool x low) eqn:Hlt.
    + split; [apply Qle_refl | assumption].
    + apply Qlt_bool_false in Hlt. split; assumption.
Qed.

Lemma CLAMP_inside x low high :
  (low <= x)%Q -> (x <= high)%Q -> CLAMP x low high = x.
Proof.
  intros Hl Hh. unfold CLAMP.
  apply Qgt_bool_false in Hh. apply Qlt_bool_false in Hl.
  now rewrite Hh, Hl.
Qed.

Lemma CLAMP_le x low high m :
  (low <= m)%Q -> (x <= m)%Q -> (CLAMP x low high <= m)%Q.
Proof.
  intros Hl Hx. unfold CLAMP.
  destruct (Qgt_bool x high) eqn:Hgt.
  - apply Qgt_bool_true in Hgt.
    apply Qle_trans with x; [now apply Qlt_le_weak | assumption].
  - now destruct (Qlt_bool x low).
Qed.

End AdjustmentFacts.

(** ** What the slots and [set_value] can change *)

Section WidgetFacts.

Context {L T : Type} {latent_ops : Latent L} {tailtime_ops : TailTime T}.

Implicit Types g : TimeCtlGUI L T.

Lemma with_state_same g :
  with_state (_latent g) (_tailtime g) (Adjustment.value (adjustment g)) g = g.
Proof. destruct g as [l t sr psz ic [v lo up st pg ps] u sl]. reflexivity. Qed.

Lemma set_ignore_change_with_state b l t v g :
  set_ignore_change b (with_state l t v g)
  = with_state l t v (set_ignore_change b g).
Proof. reflexivity. Qed.

Lemma set_ignore_change_twice b b' g :
  set_ignore_change b (set_ignore_change b' g) = set_ignore_change b g.
Proof. reflexivity. Qed.

Lemma set_ignore_change_same g : set_ignore_change (_ignore_change g) g = g.
Proof. destruct g. reflexivity. Qed.

Lemma finish_guarded g : _ignore_change g = true -> finish g = g.
Proof. intros Hg. unfold finish. now rewrite Hg. Qed.

Lemma finish_shape g :
  exists l t,
    finish g = with_state l t (Adjustment.value (adjustment g)) g.
Proof.
  destruct g as [l t sr psz ic [v lo up st pg ps] u sl].
  unfold finish; simpl.
  destruct ic; [now exists l, t|].
  destruct l as [l|];
    [now exists (Some (set_user_latency (samplepos_of_double v) l)), t|].
  destruct t as [t|]; [|now exists None, None].
  now exists None, (Some (set_user_tailtime (samplepos_of_double v) t)).
Qed.

Lemma run_slots_shape (slots : list slot) g :
  exists l t,
    fold_left (fun g' s => run_slot s g') slots g
    = with_state l t (Adjustment.value (adjustment g)) g.
Proof.
  revert g. induction slots as [|s slots IH]; intros g; simpl.
  - exists (_latent g), (_tailtime g). now rewrite with_state_same.
  - destruct s; simpl.
    destruct (finish_shape g) as (l1 & t1 & E1). rewrite E1.
    destruct (IH (with_state l1 t1 (Adjustment.value (adjustment g)) g))
      as (l2 & t2 & E2).
    exists l2, t2. rewrite E2. reflexivity.
Qed.

Lemma run_slots_guarded (slots : list slot) g :
  _ignore_change g = true ->
  fold_left (fun g' s => run_slot s g') slots g = g.
Proof.
  intros Hg. induction slots as [|s slots IH]; simpl; [reflexivity|].
  destruct s; simpl. now rewrite finish_guarded.
Qed.

Lemma emit_value_changed_guarded g :
  _ignore_change g = true -> emit_value_changed g = g.
Proof. apply run_slots_guarded. Qed.

Lemma emit_value_changed_unconnected g :
  value_changed_slots g = [] -> emit_value_changed g = g.
Proof. unfold emit_value_changed. now intros ->. Qed.

Lemma value_set_eq v g :
  (value_set v g ==
   Adjustment.CLAMP v (Adjustment.lower (adjustment g))
     (Adjustment.upper (adjustment g)))%Q.
Proof.
  unfold value_set; cbv zeta.
  destruct (Qeq_bool _ _) eqn:E; [|apply Qeq_refl].
  apply Qeq_bool_eq in E. now apply Qeq_sym.
Qed.

Lemma set_value_shape v g :
  exists l t, adjustment_set_value v g = with_state l t (value_set v g) g.
Proof.
  unfold adjustment_set_value, value_set; cbv zeta.
  destruct (Qeq_bool _ _).
  - exists (_latent g), (_tailtime g). now rewrite with_state_same.
  - unfold emit_value_changed.
    match goal with
    | |- context [fold_left ?f ?sl ?g1] =>
        destruct (run_slots_shape sl g1) as (l & t & E)
    end.
    exists l, t. rewrite E. reflexivity.
Qed.

Lemma set_value_guarded v g :
  _ignore_change g = true ->
  adjustment_set_value v g
  = with_state (_latent g) (_tailtime g) (value_set v g) g.
Proof.
  intros Hg. unfold adjustment_set_value, value_set; cbv zeta.
  destruct (Qeq_bool _ _).
  - now rewrite with_state_same.
  - now rewrite emit_value_changed_guarded.
Qed.

Lemma set_value_unconnected v g :
  value_changed_slots g = [] ->
  adjustment_set_value v g
  = with_state (_latent g) (_tailtime g) (value_set v g) g.
Proof.
  intros Hs. unfold adjustment_set_value, value_set; cbv zeta.
  destruct (Qeq_bool _ _).
  - now rewrite with_state_same.
  - now rewrite emit_value_changed_unconnected.
Qed.

(** [set_value] under an [Unwinder] that suppresses the slots. *)
Lemma Unwinder_set_value v g :
  Unwinder true (adjustment_set_value v) g
  = with_state (_latent g) (_tailtime g) (value_set v g) g.
Proof.
  unfold Unwinder. rewrite set_value_guarded by reflexivity.
  rewrite set_ignore_change_with_state, set_ignore_change_twice.
  now rewrite set_ignore_change_same.
Qed.

End WidgetFacts.

(** * The claims *)

Section Claims.

Context {L T : Type} {latent_ops : Latent L} {tailtime_ops : TailTime T}.
Variable Config : RCConfiguration.
Variable gettext : string -> string.

Implicit Types g : TimeCtlGUI L T.

Lemma with_state_externals_same v g :
  with_state (_latent g) (_tailtime g) v g
  = set_adjustment (Adjustment.with_value v (adjustment g)) g.
Proof. destruct g. reflexivity. Qed.

Lemma samplepos_of_whole_double d n :
  (d == inject_Z n)%Q -> samplepos_of_double d = n.
Proof.
  unfold Qeq, samplepos_of_double; simpl. intros E.
  rewrite Z.mul_1_r in E. rewrite E. apply Z.quot_mul. discriminate.
Qed.

(** *** Invariants of the steps *)

Lemma value_set_bounded lo up v g :
  (lo <= up)%Q -> bounded_by lo up g ->
  (lo <= value_set v g)%Q /\ (value_set v g <= up)%Q.
Proof.
  intros Hlu (Hlo & Hup & H1 & H2). unfold value_set; cbv zeta.
  destruct (Qeq_bool _ _); [now split|].
  rewrite Hlo, Hup. now apply AdjustmentFacts.CLAMP_bounds.
Qed.

Lemma with_state_bounded lo up l t v g :
  bounded_by lo up g -> (lo <= v)%Q -> (v <= up)%Q ->
  bounded_by lo up (with_state l t v g).
Proof. intros (Hlo & Hup & _) H1 H2. now repeat split. Qed.

Lemma set_value_bounded lo up v g :
  (lo <= up)%Q -> bounded_by lo up g ->
  bounded_by lo up (adjustment_set_value v g).
Proof.
  intros Hlu Hb. destruct (set_value_shape v g) as (l & t & ->).
  destruct (value_set_bounded lo up v g Hlu Hb).
  now apply with_state_bounded.
Qed.

Lemma Unwinder_set_value_bounded lo up v g :
  (lo <= up)%Q -> bounded_by lo up g ->
  bounded_by lo up (Unwinder true (adjustment_set_value v) g).
Proof.
  intros Hlu Hb. rewrite Unwinder_set_value.
  destruct (value_set_bounded lo up v g Hlu Hb).
  now apply with_state_bounded.
Qed.

Lemma finish_bounded lo up g :
  bounded_by lo up g -> bounded_by lo up (finish g).
Proof.
  intros Hb. destruct (finish_shape g) as (l & t & ->).
  apply with_state_bounded; [assumption | apply Hb | apply Hb].
Qed.

Lemma reset_bounded lo up g :
  (lo <= up)%Q -> bounded_by lo up g -> bounded_by lo up (reset Config g).
Proof.
  intros Hlu Hb. unfold reset.
  destruct (_latent g) as [l|]; [|destruct (_tailtime g) as [t|]];
    [apply Unwinder_set_value_bounded .. | ]; assumption.
Qed.

Lemma refresh_bounded lo up g :
  (lo <= up)%Q -> bounded_by lo up g -> bounded_by lo up (refresh Config g).
Proof.
  intros Hlu Hb.
  destruct (_latent g) as [l|] eqn:Hl; [|destruct (_tailtime g) as [t|] eqn:Ht].
  - replace (refresh Config g) with
      (Unwinder true
         (adjustment_set_value
            (double_of_samples (Z.min (sample_rate g) (effective_latency l))))
         g)
      by (unfold refresh, Unwinder; simpl; now rewrite Hl).
    now apply Unwinder_set_value_bounded.
  - replace (refresh Config g) with
      (Unwinder true
         (adjustment_set_value
            (double_of_samples
               (Z.min (get_max_tail_samples Config) (effective_tailtime t))))
         g)
      by (unfold refresh, Unwinder; simpl; now rewrite Hl, Ht).
    now apply Unwinder_set_value_bounded.
  - replace (refresh Config g) with g; [assumption|].
    unfold refresh, Unwinder; simpl. rewrite Hl, Ht.
    now destruct g.
Qed.

Lemma change_from_button_bounded lo up dir g g' :
  (lo <= up)%Q -> bounded_by lo up g ->
  change_from_button gettext dir g = Returns g' -> bounded_by lo up g'.
Proof.
  intros Hlu Hb. unfold change_from_button.
  destruct (shift_of_unit _ _ _ _); [|discriminate].
  destruct (0 <? dir)%Z; intros [= <-]; now apply set_value_bounded.
Qed.

Lemma step_bounded lo up e g g' :
  (lo <= up)%Q -> bounded_by lo up g ->
  step Config gettext e g = Returns g' -> bounded_by lo up g'.
Proof.
  intros Hlu Hb. destruct e; simpl.
  - intros [= <-]. now apply finish_bounded.
  - intros [= <-]. now apply reset_bounded.
  - intros [= <-]. now apply refresh_bounded.
  - now apply change_from_button_bounded.
  - intros [= <-]. now apply set_value_bounded.
  - intros [= <-]. exact Hb.
  - intros [= <-]. exact Hb.
Qed.

Lemma states_after_bounded lo up evs g :
  (lo <= up)%Q -> bounded_by lo up g ->
  Forall (bounded_by lo up) (states_after Config gettext evs g).
Proof.
  intros Hlu. revert g. induction evs as [|e evs IH]; intros g Hb; simpl.
  - constructor.
  - destruct (step Config gettext e g) as [g'|msg] eqn:E; [|constructor].
    assert (Hb' : bounded_by lo up g') by (eapply step_bounded; eauto).
    constructor; auto.
Qed.

Lemma init_bounded lo up g :
  (lo <= up)%Q -> bounded_by lo up g -> bounded_by lo up (init gettext g).
Proof.
  intros Hlu Hb. unfold init. cbv zeta.
  set (g1 := set_active_text _ g).
  assert (Hb1 : bounded_by lo up g1) by exact Hb.
  destruct (_latent g1); [|destruct (_tailtime g1)];
    [now apply set_value_bounded .. | exact Hb1].
Qed.

(** *** The guard and the external objects along the steps *)

Lemma set_value_guard v g :
  _ignore_change (adjustment_set_value v g) = _ignore_change g.
Proof. now destruct (set_value_shape v g) as (l & t & ->). Qed.

Lemma finish_guard g : _ignore_change (finish g) = _ignore_change g.
Proof. now destruct (finish_shape g) as (l & t & ->). Qed.

Lemma refresh_cases g :
  (exists v, refresh Config g = Unwinder true (adjustment_set_value v) g) \/
  refresh Config g = g.
Proof.
  destruct (_latent g) as [l|] eqn:Hl; [|destruct (_tailtime g) as [t|] eqn:Ht].
  - left. eexists. unfold refresh, Unwinder; simpl. rewrite Hl. reflexivity.
  - left. eexists. unfold refresh, Unwinder; simpl. rewrite Hl, Ht. reflexivity.
  - right. unfold refresh, Unwinder; simpl. rewrite Hl, Ht. now destruct g.
Qed.

(** [g] after the call that clears the override of the object it wraps. *)
Lemma reset_cases g :
  (exists v,
     reset Config g
     = Unwinder true (adjustment_set_value v)
         (match _latent g with
          | Some l => set_latent (Some (unset_user_latency l)) g
          | None => set_tailtime (option_map unset_user_tailtime (_tailtime g)) g
          end)) \/
  reset Config g = g.
Proof.
  unfold reset.
  destruct (_latent g) as [l|]; [|destruct (_tailtime g) as [t|]].
  - left. eexists. reflexivity.
  - left. eexists. reflexivity.
  - now right.
Qed.

Lemma refresh_guard g : _ignore_change (refresh Config g) = _ignore_change g.
Proof.
  destruct (refresh_cases g) as [[v ->] | ->]; [|reflexivity].
  now rewrite Unwinder_set_value.
Qed.

Lemma reset_guard g : _ignore_change (reset Config g) = _ignore_change g.
Proof.
  destruct (reset_cases g) as [[v ->] | ->]; [|reflexivity].
  rewrite Unwinder_set_value. now destruct (_latent g).
Qed.

Lemma step_guard e g g' :
  step Config gettext e g = Returns g' -> _ignore_change g' = _ignore_change g.
Proof.
  destruct e; simpl; try (intros [= <-]).
  - apply finish_guard.
  - apply reset_guard.
  - apply refresh_guard.
  - unfold change_from_button.
    destruct (shift_of_unit _ _ _ _); [|discriminate].
    destruct (0 <? dir)%Z; intros [= <-]; apply set_value_guard.
  - apply set_value_guard.
  - reflexivity.
  - reflexivity.
Qed.

Lemma states_after_guard evs g :
  _ignore_change g = false ->
  Forall (fun g' => _ignore_change g' = false)
    (states_after Config gettext evs g).
Proof.
  revert g. induction evs as [|e evs IH]; intros g Hg; simpl.
  - constructor.
  - destruct (step Config gettext e g) as [g'|msg] eqn:E; [|constructor].
    assert (Hg' : _ignore_change g' = false)
      by (rewrite (step_guard _ _ _ E); exact Hg).
    constructor; auto.
Qed.

Lemma init_guard g : _ignore_change (init gettext g) = _ignore_change g.
Proof.
  unfold init; cbv zeta. set (g1 := set_active_text _ g).
  destruct (_latent g1); [|destruct (_tailtime g1)];
    cbn [connect_value_changed _ignore_change];
    rewrite ?set_value_guard; reflexivity.
Qed.

(** *** The units *)

Lemma shift_of_unit_None sr psz u :
  shift_of_unit gettext sr psz u = None <-> ~ In u (unit_strings gettext).
Proof.
  unfold shift_of_unit, unit_strings, I18N; simpl.
  destruct (String.eqb_spec u (gettext "sample")) as [E0|N0].
  { split; [discriminate | intros N; exfalso; apply N; auto]. }
  destruct (String.eqb_spec u (gettext "msec")) as [E1|N1].
  { split; [discriminate | intros N; exfalso; apply N; auto]. }
  destruct (String.eqb_spec u (gettext "period")) as [E2|N2].
  { split; [discriminate | intros N; exfalso; apply N; auto]. }
  split; [|reflexivity].
  intros _ [E|[E|[E|[]]]]; congruence.
Qed.

Lemma finish_active_text u g :
  finish (set_active_text u g) = set_active_text u (finish g).
Proof.
  destruct g as [l t sr psz ic a uc sl]. unfold finish; simpl.
  destruct ic; [reflexivity|]. destruct l; [reflexivity|].
  destruct t; reflexivity.
Qed.

Lemma run_slots_active_text u (slots : list slot) g :
  fold_left (fun g' s => run_slot s g') slots (set_active_text u g)
  = set_active_text u (fold_left (fun g' s => run_slot s g') slots g).
Proof.
  revert g. induction slots as [|s slots IH]; intros g; simpl.
  - reflexivity.
  - destruct s; simpl. now rewrite finish_active_text, IH.
Qed.

Lemma set_value_active_text u v g :
  adjustment_set_value v (set_active_text u g)
  = set_active_text u (adjustment_set_value v g).
Proof.
  unfold adjustment_set_value; simpl.
  destruct (Qeq_bool _ _); [reflexivity|].
  unfold emit_value_changed; simpl.
  apply (run_slots_active_text u (value_changed_slots g)
           (set_adjustment _ g)).
Qed.

Lemma Unwinder_set_value_active_text u v g :
  Unwinder true (adjustment_set_value v) (set_active_text u g)
  = set_active_text u (Unwinder true (adjustment_set_value v) g).
Proof.
  unfold Unwinder.
  change (set_ignore_change true (set_active_text u g))
    with (set_active_text u (set_ignore_change true g)).
  now rewrite set_value_active_text.
Qed.

Lemma reset_active_text u g :
  reset Config (set_active_text u g) = set_active_text u (reset Config g).
Proof.
  unfold reset; simpl.
  destruct (_latent g) as [l|]; [|destruct (_tailtime g) as [t|]].
  - apply (Unwinder_set_value_active_text u _ (set_latent _ g)).
  - apply (Unwinder_set_value_active_text u _ (set_tailtime _ g)).
  - reflexivity.
Qed.

Lemma refresh_active_text u g :
  refresh Config (set_active_text u g) = set_active_text u (refresh Config g).
Proof.
  unfold refresh, Unwinder; simpl.
  destruct (_latent g) as [l|]; [|destruct (_tailtime g) as [t|]].
  - change (set_ignore_change true (set_active_text u g))
      with (set_active_text u (set_ignore_change true g)).
    now rewrite set_value_active_text.
  - change (set_ignore_change true (set_active_text u g))
      with (set_active_text u (set_ignore_change true g)).
    now rewrite set_value_active_text.
  - reflexivity.
Qed.

Lemma set_value_value v g :
  (Adjustment.value (adjustment (adjustment_set_value v g)) ==
   Adjustment.CLAMP v (Adjustment.lower (adjustment g))
     (Adjustment.upper (adjustment g)))%Q.
Proof.
  destruct (set_value_shape v g) as (l & t & ->). apply value_set_eq.
Qed.

(** *** Construction *)

Lemma init_shape g :
  value_changed_slots g = [] ->
  exists x,
    init gettext g
    = connect_value_changed slot_finish
        (with_state (_latent g) (_tailtime g) x
           (set_active_text (hd "" (unit_strings gettext)) g)) /\
    (x = value_set
           (double_of_samples
              (Z.min (sample_rate g)
                 match _latent g with
                 | Some l => signal_latency l
                 | None =>
                     match _tailtime g with
                     | Some t => signal_tailtime t
                     | None => sample_rate g
                     end
                 end))
           g \/
     _latent g = None /\ _tailtime g = None /\
     x = Adjustment.value (adjustment g)).
Proof.
  intros Hs. unfold init; cbv zeta.
  set (g1 := set_active_text _ g).
  assert (Hs1 : value_changed_slots g1 = []) by exact Hs.
  change (_latent g1) with (_latent g). change (_tailtime g1) with (_tailtime g).
  change (sample_rate g1) with (sample_rate g).
  destruct (_latent g) as [l|] eqn:Hl; [|destruct (_tailtime g) as [t|] eqn:Ht].
  - eexists. split; [|left; reflexivity].
    rewrite (set_value_unconnected _ g1 Hs1).
    change (_latent g1) with (_latent g). now rewrite Hl.
  - eexists. split; [|left; reflexivity].
    rewrite (set_value_unconnected _ g1 Hs1).
    change (_latent g1) with (_latent g).
    change (_tailtime g1) with (_tailtime g). now rewrite Hl, Ht.
  - exists (Adjustment.value (adjustment g)). split; [|now right].
    rewrite <- Hl, <- Ht.
    change (with_state (_latent g) (_tailtime g)
              (Adjustment.value (adjustment g)) g1)
      with (with_state (_latent g1) (_tailtime g1)
              (Adjustment.value (adjustment g1)) g1).
    now rewrite with_state_same.
Qed.

(** C1.  When the guard [_ignore_change] is false, [finish] hands the value of
    the adjustment, converted to a sample position, to the external object:
    to [set_user_latency] when the widget wraps a [Latent], to
    [set_user_tailtime] when it wraps a [TailTime]; the widget is otherwise
    unchanged.  For a value that is a whole number of samples the conversion
    is exact. *)
Theorem finish_pushes_value g :
  _ignore_change g = false ->
  let new_value := samplepos_of_double (Adjustment.value (adjustment g)) in
  (forall l, _latent g = Some l ->
     finish g = set_latent (Some (set_user_latency new_value l)) g) /\
  (forall t, _latent g = None -> _tailtime g = Some t ->
     finish g = set_tailtime (Some (set_user_tailtime new_value t)) g) /\
  (forall n, (Adjustment.value (adjustment g) == inject_Z n)%Q ->
     new_value = n).
Proof.
  intros Hg new_value. unfold finish. rewrite Hg. fold new_value.
  repeat split.
  - now intros l ->.
  - now intros t -> ->.
  - apply samplepos_of_whole_double.
Qed.

(** C2, as amended.  [reset] first clears the override of the external object
    ([unset_user_latency], [unset_user_tailtime]); it then reads the signal
    value of the object ([signal_latency], [signal_tailtime]), limits it (to
    [sample_rate], to [Config->get_max_tail_samples ()]) and gives it to
    [set_value] while the guard is set.  The widget that results differs from
    the one before in the cleared override and in the value of the adjustment
    only: nothing is handed back to the external object. *)
Theorem reset_pulls_signal g :
  (forall l, _latent g = Some l ->
     let l' := unset_user_latency l in
     let pulled :=
       double_of_samples (Z.min (sample_rate g) (signal_latency l')) in
     reset Config g
     = set_ignore_change (_ignore_change g)
         (adjustment_set_value pulled
            (set_ignore_change true (set_latent (Some l') g))) /\
     exists v,
       reset Config g
       = set_adjustment (Adjustment.with_value v (adjustment g))
           (set_latent (Some l') g) /\
       (v == Adjustment.CLAMP pulled (Adjustment.lower (adjustment g))
               (Adjustment.upper (adjustment g)))%Q) /\
  (forall t, _latent g = None -> _tailtime g = Some t ->
     let t' := unset_user_tailtime t in
     let pulled :=
       double_of_samples
         (Z.min (get_max_tail_samples Config) (signal_tailtime t')) in
     reset Config g
     = set_ignore_change (_ignore_change g)
         (adjustment_set_value pulled
            (set_ignore_change true (set_tailtime (Some t') g))) /\
     exists v,
       reset Config g
       = set_adjustment (Adjustment.with_value v (adjustment g))
           (set_tailtime (Some t') g) /\
       (v == Adjustment.CLAMP pulled (Adjustment.lower (adjustment g))
               (Adjustment.upper (adjustment g)))%Q).
Proof.
  split.
  - intros l Hl l' pulled. unfold reset. rewrite Hl. fold l' pulled.
    split; [reflexivity|].
    rewrite Unwinder_set_value.
    exists (value_set pulled (set_latent (Some l') g)). split.
    + now rewrite with_state_externals_same.
    + apply (value_set_eq pulled (set_latent (Some l') g)).
  - intros t Hl Ht t' pulled. unfold reset. rewrite Hl, Ht. fold t' pulled.
    split; [reflexivity|].
    rewrite Unwinder_set_value.
    exists (value_set pulled (set_tailtime (Some t') g)). split.
    + now rewrite with_state_externals_same.
    + apply (value_set_eq pulled (set_tailtime (Some t') g)).
Qed.

(** C3.  [refresh] reads the effective value of the external object
    ([effective_latency], [effective_tailtime]), limits it to the maximum
    ([sample_rate] for a [Latent], [Config->get_max_tail_samples ()] for a
    [TailTime]) and gives it to [set_value] while the guard is set.  The
    widget that results differs from the one before in the value of the
    adjustment only: the external object is the one it was, so neither
    [set_user_latency] nor [set_user_tailtime] has been called.  The value is
    the one pulled whenever that lies within the range of the adjustment. *)
Theorem refresh_pulls_effective g :
  (forall l, _latent g = Some l ->
     let pulled :=
       double_of_samples (Z.min (sample_rate g) (effective_latency l)) in
     refresh Config g
     = set_ignore_change (_ignore_change g)
         (adjustment_set_value pulled (set_ignore_change true g)) /\
     exists v,
       refresh Config g
       = set_adjustment (Adjustment.with_value v (adjustment g)) g /\
       (v == Adjustment.CLAMP pulled (Adjustment.lower (adjustment g))
               (Adjustment.upper (adjustment g)))%Q /\
       ((Adjustment.lower (adjustment g) <= pulled)%Q ->
        (pulled <= Adjustment.upper (adjustment g))%Q -> (v == pulled)%Q)) /\
  (forall t, _latent g = None -> _tailtime g = Some t ->
     let pulled :=
       double_of_samples
         (Z.min (get_max_tail_samples Config) (effective_tailtime t)) in
     refresh Config g
     = set_ignore_change (_ignore_change g)
         (adjustment_set_value pulled (set_ignore_change true g)) /\
     exists v,
       refresh Config g
       = set_adjustment (Adjustment.with_value v (adjustment g)) g /\
       (v == Adjustment.CLAMP pulled (Adjustment.lower (adjustment g))
               (Adjustment.upper (adjustment g)))%Q /\
       ((Adjustment.lower (adjustment g) <= pulled)%Q ->
        (pulled <= Adjustment.upper (adjustment g))%Q -> (v == pulled)%Q)).
Proof.
  split.
  - intros l Hl pulled.
    assert (E : refresh Config g = Unwinder true (adjustment_set_value pulled) g).
    { unfold refresh, Unwinder. simpl. rewrite Hl. reflexivity. }
    split; [exact E|].
    rewrite E, Unwinder_set_value, with_state_externals_same.
    exists (value_set pulled g). split; [reflexivity|]. split.
    + apply value_set_eq.
    + intros H1 H2. rewrite value_set_eq.
      now rewrite AdjustmentFacts.CLAMP_inside.
  - intros t Hl Ht pulled.
    assert (E : refresh Config g = Unwinder true (adjustment_set_value pulled) g).
    { unfold refresh, Unwinder. simpl. rewrite Hl, Ht. reflexivity. }
    split; [exact E|].
    rewrite E, Unwinder_set_value, with_state_externals_same.
    exists (value_set pulled g). split; [reflexivity|]. split.
    + apply value_set_eq.
    + intros H1 H2. rewrite value_set_eq.
      now rewrite AdjustmentFacts.CLAMP_inside.
Qed.

(** C5.  From its construction on and through every sequence of calls of
    [finish], [reset], [refresh], [change_from_button] and the controllable's
    [set_value] (and of changes of the unit or of the external object), the
    value of the adjustment stays between the lower bound 0 and the upper
    bound the constructor configured: [sample_rate] for a [Latent],
    [20 * sample_rate] for a [TailTime].  A sequence ends where
    [change_from_button] aborts the process.  The sample rate is not
    negative, and [20 * sample_rate] is an [int64_t]. *)
Theorem value_within_bounds (sr psz : samplepos_t) (evs : list (event L T)) :
  0 <= sr ->
  (forall l : L,
     let g0 : TimeCtlGUI L T := TimeCtlGUI_Latent gettext l sr psz in
     Forall (bounded_by 0%Q (double_of_samples sr))
       (g0 :: states_after Config gettext evs g0)) /\
  (in_int64 (20 * sr) ->
   forall t : T,
     let g0 : TimeCtlGUI L T := TimeCtlGUI_TailTime gettext t sr psz in
     Forall (bounded_by 0%Q (double_of_samples (20 * sr)))
       (g0 :: states_after Config gettext evs g0)).
Proof.
  intros Hsr.
  assert (H1 : (0 <= double_of_samples sr)%Q) by (apply double_of_samples_nonneg; lia).
  assert (H20 : (0 <= double_of_samples (20 * sr))%Q)
    by (apply double_of_samples_nonneg; lia).
  split.
  - intros l g0.
    assert (Hb : bounded_by 0%Q (double_of_samples sr) g0).
    { apply init_bounded; [assumption|].
      repeat split; simpl; [apply Qle_refl | assumption]. }
    constructor; [assumption|]. now apply states_after_bounded.
  - intros H64 t g0.
    assert (Hb : bounded_by 0%Q (double_of_samples (20 * sr)) g0).
    { unfold g0, TimeCtlGUI_TailTime. rewrite (int64_mul_in_range 20 sr H64).
      apply init_bounded; [assumption|].
      repeat split; simpl; [apply Qle_refl | assumption]. }
    constructor; [assumption|]. now apply states_after_bounded.
Qed.

(** C4.  While the guard [_ignore_change] is true the slot [finish] does
    nothing, and a [set_value] leaves the guard true and the external object
    as it is.  [refresh] and [reset] are such a [set_value] in the scope of an
    [Unwinder] that sets the guard (for [reset], after the override has been
    cleared), so they call neither [set_user_latency] nor
    [set_user_tailtime]; when they return the guard has the value it had
    before, which is false in every state a constructed widget reaches. *)
Theorem guard_suppresses_feedback g :
  (_ignore_change g = true ->
   finish g = g /\
   forall v,
     _ignore_change (adjustment_set_value v g) = true /\
     _latent (adjustment_set_value v g) = _latent g /\
     _tailtime (adjustment_set_value v g) = _tailtime g) /\
  (forall body,
     Unwinder true body g
     = set_ignore_change (_ignore_change g) (body (set_ignore_change true g)) /\
     _ignore_change (set_ignore_change true g) = true) /\
  ((exists v, refresh Config g = Unwinder true (adjustment_set_value v) g) \/
   refresh Config g = g) /\
  ((exists v,
      reset Config g
      = Unwinder true (adjustment_set_value v)
          (match _latent g with
           | Some l => set_latent (Some (unset_user_latency l)) g
           | None =>
               set_tailtime (option_map unset_user_tailtime (_tailtime g)) g
           end)) \/
   reset Config g = g) /\
  (_latent (refresh Config g) = _latent g /\
   _tailtime (refresh Config g) = _tailtime g /\
   _ignore_change (refresh Config g) = _ignore_change g) /\
  (_latent (reset Config g) = option_map unset_user_latency (_latent g) /\
   _tailtime (reset Config g)
   = match _latent g with
     | Some _ => _tailtime g
     | None => option_map unset_user_tailtime (_tailtime g)
     end /\
   _ignore_change (reset Config g) = _ignore_change g) /\
  (forall sr psz (evs : list (event L T)),
     (forall l : L,
        let g0 : TimeCtlGUI L T := TimeCtlGUI_Latent gettext l sr psz in
        Forall (fun g' => _ignore_change g' = false)
          (g0 :: states_after Config gettext evs g0)) /\
     (forall t : T,
        let g0 : TimeCtlGUI L T := TimeCtlGUI_TailTime gettext t sr psz in
        Forall (fun g' => _ignore_change g' = false)
          (g0 :: states_after Config gettext evs g0))).
Proof.
  split; [|split; [|split; [|split; [|split; [|split]]]]].
  - intros Hg. split; [now apply finish_guarded|].
    intros v. rewrite (set_value_guarded v g Hg). now repeat split.
  - intros body. split; reflexivity.
  - apply refresh_cases.
  - apply reset_cases.
  - destruct (refresh_cases g) as [[v ->] | ->]; [|now repeat split].
    rewrite Unwinder_set_value. now repeat split.
  - unfold reset.
    destruct (_latent g) as [l|] eqn:Hl;
      [|destruct (_tailtime g) as [t|] eqn:Ht];
      rewrite ?Unwinder_set_value; simpl; rewrite ?Hl, ?Ht; now repeat split.
  - intros sr psz evs. split.
    + intros l g0.
      assert (H0 : _ignore_change g0 = false) by apply init_guard.
      constructor; [assumption|]. now apply states_after_guard.
    + intros t g0.
      assert (H0 : _ignore_change g0 = false) by apply init_guard.
      constructor; [assumption|]. now apply states_after_guard.
Qed.


(** C7, as amended.  With distinct unit strings, [change_from_button] gives
    [set_value] the [double] sum of the current value and the shift when
    [dir > 0] and their [double] difference otherwise, where the shift is 1
    for the sample unit, the [double] quotient [sample_rate / 1000.0] for the
    millisecond unit and [period_size] for the period unit; the plus and minus
    buttons call it with 1 and -1.  The quotient is [sample_rate / 1000]
    itself for a sample rate that is a multiple of 1000, and the sum and the
    difference of whole numbers are exact (all up to [2 ^ 53]); otherwise they
    are rounded.  The adjustment then holds the value it was given, limited
    to its range.  The active unit has no influence on [finish], [reset],
    [refresh] and the controllable's [set_value]. *)
Theorem unit_scales_button_shift (dir : Z) g :
  NoDup (unit_strings gettext) ->
  let moved_by (shift : double) :=
    Returns
      (adjustment_set_value
         (if (0 <? dir)%Z
          then double_add (Adjustment.value (adjustment g)) shift
          else double_sub (Adjustment.value (adjustment g)) shift) g) in
  (units_combo g = gettext "sample" ->
   change_from_button gettext dir g = moved_by 1%Q) /\
  (units_combo g = gettext "msec" ->
   change_from_button gettext dir g
   = moved_by (double_div (double_of_samples (sample_rate g)) 1000%Q)) /\
  (units_combo g = gettext "period" ->
   change_from_button gettext dir g
   = moved_by (double_of_samples (period_size g))) /\
  (forall n : Z,
     0 <= 1000 * n <= 2 ^ 53 ->
     (double_div (double_of_samples (1000 * n)) 1000%Q == inject_Z n)%Q) /\
  (forall a b : Z,
     (0 <= a + b <= 2 ^ 53 ->
      (double_add (inject_Z a) (inject_Z b) == inject_Z (a + b))%Q) /\
     (0 <= a - b <= 2 ^ 53 ->
      (double_sub (inject_Z a) (inject_Z b) == inject_Z (a - b))%Q)) /\
  (forall x : double,
     (Adjustment.value (adjustment (adjustment_set_value x g)) ==
      Adjustment.CLAMP x (Adjustment.lower (adjustment g))
        (Adjustment.upper (adjustment g)))%Q /\
     ((Adjustment.lower (adjustment g) <= x)%Q ->
      (x <= Adjustment.upper (adjustment g))%Q ->
      (Adjustment.value (adjustment (adjustment_set_value x g)) == x)%Q)) /\
  (clicked Config gettext plus_button g = change_from_button gettext 1 g /\
   clicked Config gettext minus_button g = change_from_button gettext (-1) g) /\
  (forall u : string,
     finish (set_active_text u g) = set_active_text u (finish g) /\
     reset Config (set_active_text u g) = set_active_text u (reset Config g) /\
     refresh Config (set_active_text u g)
     = set_active_text u (refresh Config g) /\
     forall x,
       Controllable_set_value x (set_active_text u g)
       = set_active_text u (Controllable_set_value x g)).
Proof.
  intros Hnd moved_by.
  assert (Hd : gettext "sample" <> gettext "msec" /\
               gettext "sample" <> gettext "period" /\
               gettext "msec" <> gettext "period").
  { unfold unit_strings, I18N in Hnd; simpl in Hnd.
    inversion Hnd as [|? ? H0 Hnd1]; subst.
    inversion Hnd1 as [|? ? H1 _]; subst.
    simpl in H0, H1. repeat split; intros E; [apply H0|apply H0|apply H1];
      rewrite E; auto. }
  destruct Hd as (D01 & D02 & D12).
  unfold change_from_button, shift_of_unit, unit_strings, I18N, moved_by;
    simpl nth.
  split; [|split; [|split; [|split; [|split; [|split; [|split]]]]]].
  - intros ->. rewrite String.eqb_refl. now destruct (0 <? dir)%Z.
  - intros ->.
    destruct (String.eqb_spec (gettext "msec") (gettext "sample"));
      [congruence|].
    rewrite String.eqb_refl. now destruct (0 <? dir)%Z.
  - intros ->.
    destruct (String.eqb_spec (gettext "period") (gettext "sample"));
      [congruence|].
    destruct (String.eqb_spec (gettext "period") (gettext "msec"));
      [congruence|].
    rewrite String.eqb_refl. now destruct (0 <? dir)%Z.
  - intros n Hn. unfold double_div.
    rewrite (FloatingPointFacts.round_nearest_even_comp 53 ltac:(lia)
               (double_of_samples (1000 * n) / 1000) (inject_Z n)).
    + apply FloatingPointFacts.round_nearest_even_Z; lia.
    + rewrite double_of_samples_exact by lia. rewrite inject_Z_mult. field.
  - intros a b. split; intros Hab.
    + unfold double_add. rewrite <- inject_Z_plus.
      apply FloatingPointFacts.round_nearest_even_Z; lia.
    + unfold double_sub.
      rewrite (FloatingPointFacts.round_nearest_even_comp 53 ltac:(lia)
                 (inject_Z a - inject_Z b) (inject_Z (a - b))).
      * apply FloatingPointFacts.round_nearest_even_Z; lia.
      * unfold Z.sub. rewrite inject_Z_plus, inject_Z_opp. ring.
  - intros x. split; [apply set_value_value|].
    intros H1 H2. rewrite set_value_value.
    now rewrite AdjustmentFacts.CLAMP_inside.
  - split; reflexivity.
  - intros u. split; [apply finish_active_text|].
    split; [apply reset_active_text|].
    split; [apply refresh_active_text|].
    intros x. apply set_value_active_text.
Qed.

(** C8.  A constructor hands nothing to the external object: the object the
    widget wraps is the one it was given, because [init] calls [set_value]
    while no slot is connected to [signal_value_changed] and connects [finish]
    afterwards.  It leaves the adjustment at the minimum of [sample_rate] and
    the signal value of the external object ([signal_latency],
    [signal_tailtime]), both being sample counts, so not negative (and
    [20 * sample_rate] being an [int64_t]). *)
Theorem construction_pushes_nothing (sr psz : samplepos_t) :
  (forall l : L,
     let g0 : TimeCtlGUI L T := TimeCtlGUI_Latent gettext l sr psz in
     let pulled := double_of_samples (Z.min sr (signal_latency l)) in
     _latent g0 = Some l /\ _tailtime g0 = None /\
     value_changed_slots g0 = [slot_finish] /\
     (exists g1 : TimeCtlGUI L T,
        value_changed_slots g1 = [] /\ _latent g1 = Some l /\
        g0 = connect_value_changed slot_finish
               (adjustment_set_value pulled g1)) /\
     (0 <= sr -> 0 <= signal_latency l ->
      (Adjustment.value (adjustment g0) == pulled)%Q)) /\
  (forall t : T,
     let g0 : TimeCtlGUI L T := TimeCtlGUI_TailTime gettext t sr psz in
     let pulled := double_of_samples (Z.min sr (signal_tailtime t)) in
     _latent g0 = None /\ _tailtime g0 = Some t /\
     value_changed_slots g0 = [slot_finish] /\
     (exists g1 : TimeCtlGUI L T,
        value_changed_slots g1 = [] /\ _tailtime g1 = Some t /\
        g0 = connect_value_changed slot_finish
               (adjustment_set_value pulled g1)) /\
     (0 <= sr -> in_int64 (20 * sr) -> 0 <= signal_tailtime t ->
      (Adjustment.value (adjustment g0) == pulled)%Q)).
Proof.
  split.
  - intros l g0 pulled. unfold g0, TimeCtlGUI_Latent.
    match goal with |- context [init gettext ?r] => set (g := r) end.
    destruct (init_shape g eq_refl) as (x & E & [Hx | (Hl & _)]);
      [|discriminate Hl].
    split; [now rewrite E|]. split; [now rewrite E|]. split; [now rewrite E|].
    split.
    + eexists. split; [|split]; [| |reflexivity]; reflexivity.
    + intros Hsr Hsig. rewrite E. simpl. rewrite Hx, value_set_eq. simpl.
      rewrite AdjustmentFacts.CLAMP_inside; [reflexivity | |].
      * apply double_of_samples_nonneg. lia.
      * apply double_of_samples_le. lia.
  - intros t g0 pulled. unfold g0, TimeCtlGUI_TailTime.
    match goal with |- context [init gettext ?r] => set (g := r) end.
    destruct (init_shape g eq_refl) as (x & E & [Hx | (_ & Ht & _)]);
      [|discriminate Ht].
    split; [now rewrite E|]. split; [now rewrite E|]. split; [now rewrite E|].
    split.
    + eexists. split; [|split]; [| |reflexivity]; reflexivity.
    + intros Hsr H64 Hsig. rewrite E. simpl. rewrite Hx, value_set_eq.
      unfold g; rewrite (int64_mul_in_range 20 sr H64);
        cbn [adjustment Adjustment.lower Adjustment.upper Adjustment.make
             sample_rate _latent _tailtime].
      rewrite AdjustmentFacts.CLAMP_inside; [reflexivity | |].
      * apply double_of_samples_nonneg. lia.
      * apply double_of_samples_le. lia.
Qed.

(** C9, as amended.  The [Latent] constructor gives the adjustment the
    range [[0, sample_rate]] and the step 1; the [TailTime] constructor gives
    it the range [[0, 20 * sample_rate]] (the product being an [int64_t]) and
    as step the [float] quotient [sample_rate / 1000.f].  The bounds are the
    sample counts converted to [double], the counts themselves up to
    [2 ^ 53]; the step is [sample_rate / 1000] itself for a sample rate that
    is a multiple of 1000 (up to [2 ^ 24]) and rounded to [float] otherwise.
    The upper bounds differ for every positive sample rate (up to
    [2 ^ 53 / 20]), the steps for every sample rate but 1000.  For a
    [TailTime] widget, [refresh] and [reset] give [set_value] the pulled
    value limited to [Config->get_max_tail_samples ()]; the value that
    results is at most that maximum when the lower bound of the adjustment
    is. *)
Theorem constructors_configure_ranges (sr psz : samplepos_t) :
  (forall l : L,
     let a := adjustment (TimeCtlGUI_Latent gettext l sr psz : TimeCtlGUI L T) in
     Adjustment.lower a = 0%Q /\
     Adjustment.upper a = double_of_samples sr /\
     Adjustment.step_increment a = 1%Q) /\
  (in_int64 (20 * sr) ->
   forall t : T,
     let a :=
       adjustment (TimeCtlGUI_TailTime gettext t sr psz : TimeCtlGUI L T) in
     Adjustment.lower a = 0%Q /\
     Adjustment.upper a = double_of_samples (20 * sr) /\
     Adjustment.step_increment a = float_div (float_of_samples sr) 1000%Q) /\
  (0 <= sr -> 20 * sr <= 2 ^ 53 ->
   (double_of_samples sr == inject_Z sr)%Q /\
   (double_of_samples (20 * sr) == inject_Z (20 * sr))%Q) /\
  (forall n : Z,
     0 <= 1000 * n <= 2 ^ 24 ->
     (float_div (float_of_samples (1000 * n)) 1000%Q == inject_Z n)%Q) /\
  (0 < sr -> 20 * sr <= 2 ^ 53 ->
   ~ (double_of_samples sr == double_of_samples (20 * sr))%Q) /\
  (sr <> 1000 -> ~ (1 == float_div (float_of_samples sr) 1000%Q)%Q) /\
  (forall g (t : T),
     _latent g = None -> _tailtime g = Some t ->
     let max_tail := get_max_tail_samples Config in
     let t' := unset_user_tailtime t in
     let lo := Adjustment.lower (adjustment g) in
     let up := Adjustment.upper (adjustment g) in
     let pulled := double_of_samples (Z.min max_tail (effective_tailtime t)) in
     let pulled' := double_of_samples (Z.min max_tail (signal_tailtime t')) in
     refresh Config g = Unwinder true (adjustment_set_value pulled) g /\
     reset Config g
     = Unwinder true (adjustment_set_value pulled')
         (set_tailtime (Some t') g) /\
     (Adjustment.value (adjustment (refresh Config g)) ==
      Adjustment.CLAMP pulled lo up)%Q /\
     (Adjustment.value (adjustment (reset Config g)) ==
      Adjustment.CLAMP pulled' lo up)%Q /\
     ((lo <= double_of_samples max_tail)%Q ->
      (Adjustment.value (adjustment (refresh Config g))
       <= double_of_samples max_tail)%Q /\
      (Adjustment.value (adjustment (reset Config g))
       <= double_of_samples max_tail)%Q)).
Proof.
  split; [|split; [|split; [|split; [|split; [|split]]]]].
  - intros l a. unfold a, TimeCtlGUI_Latent.
    match goal with |- context [init gettext ?r] => set (g := r) end.
    destruct (init_shape g eq_refl) as (x & -> & _). now repeat split.
  - intros H64 t a. unfold a, TimeCtlGUI_TailTime.
    rewrite (int64_mul_in_range 20 sr H64).
    match goal with |- context [init gettext ?r] => set (g := r) end.
    destruct (init_shape g eq_refl) as (x & -> & _). now repeat split.
  - intros Hsr H53. split; apply double_of_samples_exact; lia.
  - intros n Hn. unfold float_div.
    rewrite (FloatingPointFacts.round_nearest_even_comp 24 ltac:(lia)
               (float_of_samples (1000 * n) / 1000) (inject_Z n)).
    + apply FloatingPointFacts.round_nearest_even_Z; lia.
    + rewrite float_of_samples_exact by lia. rewrite inject_Z_mult. field.
  - intros Hsr H53 E.
    rewrite !double_of_samples_exact in E by lia.
    apply (proj1 (inject_Z_injective _ _)) in E. lia.
  - intros Hsr E.
    assert (C : sr <= 999 \/ 1001 <= sr) by lia.
    destruct C as [C | C].
    + assert (F : (float_of_samples sr <= 999)%Q).
      { rewrite <- (float_of_samples_exact 999) by lia.
        apply binary32_mono. now rewrite <- Zle_Qle. }
      assert (D : (float_div (float_of_samples sr) 1000
                   <= float_div 999 1000)%Q).
      { apply binary32_mono. unfold Qdiv.
        apply Qmult_le_compat_r; [exact F | vm_compute; discriminate]. }
      assert (V : (float_div 999 1000 < 1)%Q) by (vm_compute; reflexivity).
      lra.
    + assert (F : (1001 <= float_of_samples sr)%Q).
      { rewrite <- (float_of_samples_exact 1001) by lia.
        apply binary32_mono. now rewrite <- Zle_Qle. }
      assert (D : (float_div 1001 1000
                   <= float_div (float_of_samples sr) 1000)%Q).
      { apply binary32_mono. unfold Qdiv.
        apply Qmult_le_compat_r; [exact F | vm_compute; discriminate]. }
      assert (V : (1 < float_div 1001 1000)%Q) by (vm_compute; reflexivity).
      lra.
  - intros g t Hl Ht max_tail t' lo up pulled pulled'.
    assert (E1 : refresh Config g
                 = Unwinder true (adjustment_set_value pulled) g).
    { unfold refresh, Unwinder; simpl. now rewrite Hl, Ht. }
    assert (E2 : reset Config g
                 = Unwinder true (adjustment_set_value pulled')
                     (set_tailtime (Some t') g)).
    { unfold reset. now rewrite Hl, Ht. }
    assert (V1 : (Adjustment.value (adjustment (refresh Config g)) ==
                  Adjustment.CLAMP pulled lo up)%Q).
    { rewrite E1, Unwinder_set_value. apply value_set_eq. }
    assert (V2 : (Adjustment.value (adjustment (reset Config g)) ==
                  Adjustment.CLAMP pulled' lo up)%Q).
    { rewrite E2, Unwinder_set_value.
      apply (value_set_eq pulled' (set_tailtime (Some t') g)). }
    split; [exact E1|]. split; [exact E2|]. split; [exact V1|].
    split; [exact V2|].
    intros Hlo. rewrite V1, V2.
    split; apply AdjustmentFacts.CLAMP_le; try assumption;
      apply double_of_samples_le; lia.
Qed.

End Claims.

(** * The claims on the sample widgets *)

(** C2 as the spec states it fails on a latency object whose effective latency
    is forced to zero: after the override has been cleared its effective
    latency is 0 and its signal latency 64; [reset] leaves 64 in the
    adjustment, pulling the effective value would leave 0. *)
Lemma reset_does_not_pull_effective :
  effective_latency (unset_user_latency Sample.zero_latent) = 0 /\
  signal_latency (unset_user_latency Sample.zero_latent) = 64 /\
  (Adjustment.value (adjustment (reset Sample.Config Sample.zero_latency_gui))
   == 64)%Q /\
  (Adjustment.value
     (adjustment (reset_as_specified Sample.Config Sample.zero_latency_gui))
   == 0)%Q /\
  ~ (Adjustment.value (adjustment (reset Sample.Config Sample.zero_latency_gui))
     == Adjustment.value
          (adjustment
             (reset_as_specified Sample.Config Sample.zero_latency_gui)))%Q.
Proof.
  repeat split; try reflexivity.
  vm_compute. discriminate.
Qed.

(** C7 as the spec states it fails at 44.1 kHz and at 88.2 kHz.  The shift
    of the millisecond unit is the [double] nearest to 44.1, not 44.1, and one
    press of the plus button at 64 does not leave 64 + 44.1, though that lies
    within the range.  At 88.2 kHz five presses at 40 leave a value below
    481 = 40 + 5 * 88.2, and the external object has been handed 480. *)
Lemma button_shift_is_rounded :
  ~ (double_div (double_of_samples 44100) 1000 == 44100 # 1000)%Q /\
  (exists g',
     change_from_button Sample.C_locale 1 Sample.msec_gui_44100 = Returns g' /\
     (Adjustment.value (adjustment Sample.msec_gui_44100) == 64)%Q /\
     (Adjustment.lower (adjustment g') <= 64 + (44100 # 1000))%Q /\
     (64 + (44100 # 1000) <= Adjustment.upper (adjustment g'))%Q /\
     ~ (Adjustment.value (adjustment g') == 64 + (44100 # 1000))%Q) /\
  (exists g5,
     last
       (states_after Sample.Config Sample.C_locale
          [ev_change_from_button 1; ev_change_from_button 1;
           ev_change_from_button 1; ev_change_from_button 1;
           ev_change_from_button 1]
          Sample.msec_gui_88200)
       Sample.msec_gui_88200
     = g5 /\
     (Adjustment.value (adjustment Sample.msec_gui_88200) == 40)%Q /\
     (Adjustment.value (adjustment g5) < 40 + 5 * (88200 # 1000))%Q /\
     option_map Sample.lat_user (_latent g5) = Some (Some 480)).
Proof.
  split; [vm_compute; discriminate|]. split.
  - eexists. split; [reflexivity|]. vm_compute.
    repeat split; discriminate.
  - eexists. split; [reflexivity|]. vm_compute.
    repeat split; reflexivity.
Qed.

(** C9 as the spec states it fails at 44.1 kHz: the step of the [TailTime]
    adjustment is the [float] nearest to 44.1, 5780275 / 131072 =
    44.09999847412109375, not 44.1. *)
Lemma tailtime_step_is_rounded :
  (Adjustment.step_increment (adjustment Sample.tailtime_gui_44100)
   == 5780275 # 131072)%Q /\
  ~ (Adjustment.step_increment (adjustment Sample.tailtime_gui_44100)
     == 44100 # 1000)%Q.
Proof.
  split; vm_compute; [reflexivity | discriminate].
Qed.

Lemma finish_pushes_value_witness :
  _ignore_change Sample.latency_gui = false /\
  finish Sample.latency_gui
  = set_latent (Some (set_user_latency 64 Sample.a_latent)) Sample.latency_gui.
Proof.
  split; [reflexivity|].
  exact (proj1 (finish_pushes_value Sample.latency_gui eq_refl)
           Sample.a_latent eq_refl).
Defined.

Lemma reset_pulls_signal_witness :
  _latent Sample.zero_latency_gui = Some Sample.zero_latent /\
  exists v,
    reset Sample.Config Sample.zero_latency_gui
    = set_adjustment
        (Adjustment.with_value v (adjustment Sample.zero_latency_gui))
        (set_latent (Some (unset_user_latency Sample.zero_latent))
           Sample.zero_latency_gui) /\
    (v == Adjustment.CLAMP (double_of_samples 64) 0 (double_of_samples 48000))%Q.
Proof.
  split; [reflexivity|].
  exact (proj2 (proj1 (reset_pulls_signal Sample.Config Sample.zero_latency_gui)
                  Sample.zero_latent eq_refl)).
Defined.

Lemma refresh_pulls_effective_witness :
  _latent Sample.zero_latency_gui = Some Sample.zero_latent /\
  exists v,
    refresh Sample.Config Sample.zero_latency_gui
    = set_adjustment
        (Adjustment.with_value v (adjustment Sample.zero_latency_gui))
        Sample.zero_latency_gui /\
    (v == Adjustment.CLAMP (double_of_samples 0) 0 (double_of_samples 48000))%Q /\
    ((0 <= double_of_samples 0)%Q ->
     (double_of_samples 0 <= double_of_samples 48000)%Q ->
     (v == double_of_samples 0)%Q).
Proof.
  split; [reflexivity|].
  exact (proj2 (proj1 (refresh_pulls_effective Sample.Config
                         Sample.zero_latency_gui)
                  Sample.zero_latent eq_refl)).
Defined.

Lemma guard_suppresses_feedback_witness :
  _ignore_change (set_ignore_change true Sample.latency_gui) = true /\
  finish (set_ignore_change true Sample.latency_gui)
  = set_ignore_change true Sample.latency_gui.
Proof.
  split; [reflexivity|].
  exact (proj1 (proj1 (guard_suppresses_feedback Sample.Config Sample.C_locale
                         (set_ignore_change true Sample.latency_gui))
                  eq_refl)).
Defined.

Lemma value_within_bounds_witness :
  0 <= 48000 /\
  Forall (bounded_by 0%Q (double_of_samples 48000))
    (Sample.latency_gui
     :: states_after Sample.Config Sample.C_locale
          [ev_units_combo "period"; ev_change_from_button 1;
           ev_set_value 50000%Q; ev_refresh; ev_reset;
           ev_change_from_button (-1)]
          Sample.latency_gui).
Proof.
  assert (Hsr : 0 <= 48000) by lia.
  split; [exact Hsr|].
  exact (proj1 (value_within_bounds Sample.Config Sample.C_locale 48000 1024 _
                  Hsr)
           Sample.a_latent).
Defined.


Lemma unit_scales_button_shift_witness :
  NoDup (unit_strings Sample.C_locale) /\
  change_from_button Sample.C_locale 1
    (set_active_text "msec" Sample.latency_gui)
  = Returns
      (adjustment_set_value
         (double_add (Adjustment.value (adjustment Sample.latency_gui))
            (double_div (double_of_samples 48000) 1000%Q))
         (set_active_text "msec" Sample.latency_gui)).
Proof.
  assert (Hnd : NoDup (unit_strings Sample.C_locale)).
  { repeat constructor; simpl; intuition discriminate. }
  split; [exact Hnd|].
  exact (proj1 (proj2 (unit_scales_button_shift Sample.Config Sample.C_locale 1
                         (set_active_text "msec" Sample.latency_gui) Hnd))
           eq_refl).
Defined.

Lemma construction_pushes_nothing_witness :
  0 <= 48000 /\
  0 <= signal_latency Sample.a_latent /\
  _latent Sample.latency_gui = Some Sample.a_latent /\
  (Adjustment.value (adjustment Sample.latency_gui) == double_of_samples 64)%Q.
Proof.
  assert (Hsr : 0 <= 48000) by lia.
  assert (Hsig : 0 <= signal_latency Sample.a_latent) by (simpl; lia).
  split; [exact Hsr|]. split; [exact Hsig|].
  pose proof (proj1 (construction_pushes_nothing (T := Sample.tail_obj)
                       Sample.C_locale 48000 1024)
                Sample.a_latent) as H.
  split; [exact (proj1 H)|].
  exact (proj2 (proj2 (proj2 (proj2 H))) Hsr Hsig).
Defined.

Lemma constructors_configure_ranges_witness :
  (0 < 48000 /\ 20 * 48000 <= 2 ^ 53 /\
   ~ (double_of_samples 48000 == double_of_samples (20 * 48000))%Q) /\
  (_latent Sample.tailtime_gui = None /\
   _tailtime Sample.tailtime_gui = Some Sample.a_tail /\
   refresh Sample.Config Sample.tailtime_gui
   = Unwinder true
       (adjustment_set_value
          (double_of_samples
             (Z.min (get_max_tail_samples Sample.Config)
                (effective_tailtime Sample.a_tail))))
       Sample.tailtime_gui).
Proof.
  pose proof (constructors_configure_ranges
                (L := Sample.latent_obj) (T := Sample.tail_obj)
                Sample.Config Sample.C_locale 48000 1024) as H.
  assert (H0 : 0 < 48000) by lia.
  assert (H53 : 20 * 48000 <= 2 ^ 53) by lia.
  split.
  - split; [exact H0|]. split; [exact H53|].
    exact (proj1 (proj2 (proj2 (proj2 (proj2 H)))) H0 H53).
  - split; [reflexivity|]. split; [reflexivity|].
    exact (proj1 (proj2 (proj2 (proj2 (proj2 (proj2 (proj2 H)))))
                    Sample.tailtime_gui Sample.a_tail eq_refl eq_refl)).
Defined.

(** * Further properties of the widget *)

Section Further.

Context {L T : Type} {latent_ops : Latent L} {tailtime_ops : TailTime T}.
Variable Config : RCConfiguration.
Variable gettext : string -> string.

Implicit Types g : TimeCtlGUI L T.

(** *** A value that is already there *)

Lemma value_set_fixed v g :
  (Adjustment.CLAMP v (Adjustment.lower (adjustment g))
     (Adjustment.upper (adjustment g))
   == Adjustment.value (adjustment g))%Q ->
  value_set v g = Adjustment.value (adjustment g).
Proof.
  intros E. unfold value_set; cbv zeta.
  now rewrite (Qeq_eq_bool _ _ E).
Qed.

Lemma set_value_fixed v g :
  (Adjustment.CLAMP v (Adjustment.lower (adjustment g))
     (Adjustment.upper (adjustment g))
   == Adjustment.value (adjustment g))%Q ->
  adjustment_set_value v g = g.
Proof.
  intros E. unfold adjustment_set_value; cbv zeta.
  now rewrite (Qeq_eq_bool _ _ E).
Qed.

Lemma set_value_changed v g :
  ~ (Adjustment.CLAMP v (Adjustment.lower (adjustment g))
       (Adjustment.upper (adjustment g))
     == Adjustment.value (adjustment g))%Q ->
  adjustment_set_value v g
  = emit_value_changed
      (set_adjustment
         (Adjustment.with_value
            (Adjustment.CLAMP v (Adjustment.lower (adjustment g))
               (Adjustment.upper (adjustment g)))
            (adjustment g))
         g).
Proof.
  intros N. unfold adjustment_set_value; cbv zeta.
  destruct (Qeq_bool _ _) eqn:E; [|reflexivity].
  apply Qeq_bool_eq in E. contradiction.
Qed.

Lemma Unwinder_set_value_twice v g :
  Unwinder true (adjustment_set_value v)
    (Unwinder true (adjustment_set_value v) g)
  = Unwinder true (adjustment_set_value v) g.
Proof.
  rewrite (Unwinder_set_value v g).
  set (g1 := with_state (_latent g) (_tailtime g) (value_set v g) g).
  rewrite (Unwinder_set_value v g1).
  rewrite (value_set_fixed v g1).
  - apply with_state_same.
  - unfold g1; simpl. apply Qeq_sym, value_set_eq.
Qed.

(** X1.  [refresh] is idempotent: a second [refresh] right after the first
    finds the value already in place and returns the widget as it is. *)
Theorem refresh_idempotent g :
  refresh Config (refresh Config g) = refresh Config g.
Proof.
  destruct (_latent g) as [l|] eqn:Hl; [|destruct (_tailtime g) as [t|] eqn:Ht].
  - set (v := double_of_samples (Z.min (sample_rate g) (effective_latency l))).
    assert (E : forall g', _latent g' = Some l -> sample_rate g' = sample_rate g ->
                refresh Config g' = Unwinder true (adjustment_set_value v) g').
    { intros g' Hl' Hsr. unfold refresh, Unwinder; simpl.
      now rewrite Hl', Hsr. }
    rewrite (E g Hl eq_refl).
    rewrite E.
    + apply Unwinder_set_value_twice.
    + now rewrite Unwinder_set_value.
    + now rewrite Unwinder_set_value.
  - set (v := double_of_samples
                (Z.min (get_max_tail_samples Config) (effective_tailtime t))).
    assert (E : forall g', _latent g' = None -> _tailtime g' = Some t ->
                refresh Config g' = Unwinder true (adjustment_set_value v) g').
    { intros g' Hl' Ht'. unfold refresh, Unwinder; simpl.
      now rewrite Hl', Ht'. }
    rewrite (E g Hl Ht).
    rewrite E.
    + apply Unwinder_set_value_twice.
    + now rewrite Unwinder_set_value.
    + now rewrite Unwinder_set_value.
  - assert (E : refresh Config g = g).
    { unfold refresh, Unwinder; simpl. rewrite Hl, Ht. now destruct g. }
    now rewrite !E.
Qed.

(** X2.  The controllable's [set_value] is idempotent: giving the same value
    a second time changes nothing, so no slot runs and nothing is handed to
    the external object by the second call. *)
Theorem Controllable_set_value_idempotent (v : double) g :
  Controllable_set_value v (Controllable_set_value v g)
  = Controllable_set_value v g.
Proof.
  unfold Controllable_set_value.
  destruct (set_value_shape v g) as (l & t & E). rewrite E.
  apply set_value_fixed. simpl. apply Qeq_sym, value_set_eq.
Qed.

(** X3.  Writing back what [get_value] returns is a no-op: when the value
    lies within the bounds of the adjustment,
    [set_value (get_value ())] returns the widget as it is. *)
Theorem Controllable_set_get_value g :
  (Controllable_lower g <= Controllable_get_value g)%Q ->
  (Controllable_get_value g <= Controllable_upper g)%Q ->
  Controllable_set_value (Controllable_get_value g) g = g.
Proof.
  unfold Controllable_lower, Controllable_upper, Controllable_get_value,
    Controllable_set_value.
  intros Hlo Hup. apply set_value_fixed.
  rewrite AdjustmentFacts.CLAMP_inside by assumption. apply Qeq_refl.
Qed.

(** X4.  On a widget whose guard is off and whose [finish] is connected, the
    controllable's [set_value] either finds the limited value already in the
    adjustment and does nothing, or stores it and hands it, converted to a
    sample position, to the external object once: to [set_user_latency] for a
    [Latent], to [set_user_tailtime] for a [TailTime]. *)
Theorem Controllable_set_value_pushes (v : double) g :
  _ignore_change g = false ->
  value_changed_slots g = [slot_finish] ->
  let v' :=
    Adjustment.CLAMP v (Adjustment.lower (adjustment g))
      (Adjustment.upper (adjustment g)) in
  let stored := set_adjustment (Adjustment.with_value v' (adjustment g)) g in
  ((v' == Adjustment.value (adjustment g))%Q ->
   Controllable_set_value v g = g) /\
  (~ (v' == Adjustment.value (adjustment g))%Q ->
   (forall l, _latent g = Some l ->
      Controllable_set_value v g
      = set_latent (Some (set_user_latency (samplepos_of_double v') l)) stored) /\
   (forall t, _latent g = None -> _tailtime g = Some t ->
      Controllable_set_value v g
      = set_tailtime (Some (set_user_tailtime (samplepos_of_double v') t))
          stored)).
Proof.
  intros Hg Hs v' stored. unfold Controllable_set_value. split.
  - apply set_value_fixed.
  - intros N. rewrite (set_value_changed v g N). fold v' stored.
    unfold emit_value_changed.
    change (value_changed_slots stored) with (value_changed_slots g).
    rewrite Hs. simpl. unfold finish.
    change (_ignore_change stored) with (_ignore_change g). rewrite Hg.
    change (_latent stored) with (_latent g).
    change (_tailtime stored) with (_tailtime g).
    split.
    + now intros l ->.
    + now intros t -> ->.
Qed.

(** *** What no step changes *)

Lemma finish_wiring g : wiring (finish g) = wiring g.
Proof.
  destruct g as [l t sr psz ic a u sl]. unfold finish, wiring, wraps; simpl.
  destruct ic; [reflexivity|]. destruct l; [reflexivity|].
  destruct t; reflexivity.
Qed.

Lemma finish_units_combo g : units_combo (finish g) = units_combo g.
Proof. now destruct (finish_shape g) as (l & t & ->). Qed.

Lemma run_slots_wiring (slots : list slot) g :
  wiring (fold_left (fun g' s => run_slot s g') slots g) = wiring g.
Proof.
  revert g. induction slots as [|s slots IH]; intros g; simpl; [reflexivity|].
  destruct s; simpl. now rewrite IH, finish_wiring.
Qed.

Lemma set_value_wiring v g : wiring (adjustment_set_value v g) = wiring g.
Proof.
  unfold adjustment_set_value; cbv zeta.
  destruct (Qeq_bool _ _); [reflexivity|].
  unfold emit_value_changed. now rewrite run_slots_wiring.
Qed.

Lemma set_value_units_combo v g :
  units_combo (adjustment_set_value v g) = units_combo g.
Proof. now destruct (set_value_shape v g) as (l & t & ->). Qed.

Lemma Unwinder_set_value_wiring v g :
  wiring (Unwinder true (adjustment_set_value v) g) = wiring g.
Proof. rewrite Unwinder_set_value. now destruct g. Qed.

Lemma reset_wiring g : wiring (reset Config g) = wiring g.
Proof.
  unfold reset.
  destruct (_latent g) as [l|] eqn:Hl; [|destruct (_tailtime g) as [t|] eqn:Ht].
  - rewrite Unwinder_set_value_wiring. unfold wiring, wraps; simpl.
    now rewrite Hl.
  - rewrite Unwinder_set_value_wiring. unfold wiring, wraps; simpl.
    now rewrite Ht.
  - reflexivity.
Qed.

Lemma refresh_wiring g : wiring (refresh Config g) = wiring g.
Proof.
  destruct (refresh_cases Config g) as [[v ->] | ->]; [|reflexivity].
  apply Unwinder_set_value_wiring.
Qed.

Lemma reset_units_combo g : units_combo (reset Config g) = units_combo g.
Proof.
  unfold reset.
  destruct (_latent g); [|destruct (_tailtime g)];
    rewrite ?Unwinder_set_value; reflexivity.
Qed.

Lemma refresh_units_combo g : units_combo (refresh Config g) = units_combo g.
Proof.
  destruct (refresh_cases Config g) as [[v ->] | ->]; [|reflexivity].
  now rewrite Unwinder_set_value.
Qed.

Lemma step_wiring e g g' :
  step Config gettext e g = Returns g' -> wiring g' = wiring g.
Proof.
  destruct e; simpl; try (intros [= <-]).
  - apply finish_wiring.
  - apply reset_wiring.
  - apply refresh_wiring.
  - unfold change_from_button.
    destruct (shift_of_unit _ _ _ _); [|discriminate].
    destruct (0 <? dir)%Z; intros [= <-]; apply set_value_wiring.
  - apply set_value_wiring.
  - reflexivity.
  - unfold wiring, wraps; simpl.
    now destruct (_latent g), (_tailtime g).
Qed.

Lemma step_units_combo e g g' :
  step Config gettext e g = Returns g' ->
  units_combo g'
  = match e with
    | ev_units_combo text => text
    | _ => units_combo g
    end.
Proof.
  destruct e; simpl; try (intros [= <-]).
  - apply finish_units_combo.
  - apply reset_units_combo.
  - apply refresh_units_combo.
  - unfold change_from_button.
    destruct (shift_of_unit _ _ _ _); [|discriminate].
    destruct (0 <? dir)%Z; intros [= <-]; apply set_value_units_combo.
  - apply set_value_units_combo.
  - reflexivity.
  - reflexivity.
Qed.

Lemma states_after_wiring evs g :
  Forall (fun g' => wiring g' = wiring g) (states_after Config gettext evs g).
Proof.
  revert g. induction evs as [|e evs IH]; intros g; simpl.
  - constructor.
  - destruct (step Config gettext e g) as [g'|msg] eqn:E; [|constructor].
    pose proof (step_wiring _ _ _ E) as W.
    constructor; [exact W|].
    rewrite <- W. apply IH.
Qed.

Lemma init_wiring g :
  value_changed_slots g = [] ->
  wiring (init gettext g)
  = (sample_rate g, period_size g, [slot_finish], wraps g).
Proof.
  intros Hs. destruct (init_shape gettext g Hs) as (x & -> & _).
  unfold wiring, wraps; simpl. now rewrite Hs.
Qed.

(** X5.  Nothing after the constructor rewires the widget: in every state a
    widget reaches, through whatever sequence of operations, the sample rate
    and the period size are those it was constructed with, [finish] is the
    one slot connected to [signal_value_changed], and it wraps the kind of
    object it was constructed for and no object of the other kind. *)
Theorem wiring_is_fixed (sr psz : samplepos_t) (evs : list (event L T)) :
  (forall l : L,
     let g0 : TimeCtlGUI L T := TimeCtlGUI_Latent gettext l sr psz in
     Forall
       (fun g =>
          sample_rate g = sr /\ period_size g = psz /\
          value_changed_slots g = [slot_finish] /\
          _latent g <> None /\ _tailtime g = None)
       (g0 :: states_after Config gettext evs g0)) /\
  (forall t : T,
     let g0 : TimeCtlGUI L T := TimeCtlGUI_TailTime gettext t sr psz in
     Forall
       (fun g =>
          sample_rate g = sr /\ period_size g = psz /\
          value_changed_slots g = [slot_finish] /\
          _latent g = None /\ _tailtime g <> None)
       (g0 :: states_after Config gettext evs g0)).
Proof.
  split.
  - intros l g0.
    assert (W0 : wiring g0 = (sr, psz, [slot_finish], (true, false))).
    { unfold g0, TimeCtlGUI_Latent. now rewrite init_wiring. }
    assert (H : Forall (fun g => wiring g = (sr, psz, [slot_finish], (true, false)))
                  (g0 :: states_after Config gettext evs g0)).
    { constructor; [exact W0|]. rewrite <- W0. apply states_after_wiring. }
    eapply Forall_impl; [|exact H].
    intros g. unfold wiring, wraps. intros [= -> -> -> Hl Ht].
    repeat split; try reflexivity.
    + destruct (_latent g); discriminate.
    + destruct (_tailtime g); [discriminate | reflexivity].
  - intros t g0.
    assert (W0 : wiring g0 = (sr, psz, [slot_finish], (false, true))).
    { unfold g0, TimeCtlGUI_TailTime. now rewrite init_wiring. }
    assert (H : Forall (fun g => wiring g = (sr, psz, [slot_finish], (false, true)))
                  (g0 :: states_after Config gettext evs g0)).
    { constructor; [exact W0|]. rewrite <- W0. apply states_after_wiring. }
    eapply Forall_impl; [|exact H].
    intros g. unfold wiring, wraps. intros [= -> -> -> Hl Ht].
    repeat split; try reflexivity.
    + destruct (_latent g); [discriminate | reflexivity].
    + destruct (_tailtime g); discriminate.
Qed.

(** *** The fatal branch *)

Lemma states_after_no_abort evs g :
  In (units_combo g) (unit_strings gettext) ->
  Forall (offers_units gettext) evs ->
  length (states_after Config gettext evs g) = length evs.
Proof.
  revert g. induction evs as [|e evs IH]; intros g Hin Hoff; simpl.
  - reflexivity.
  - inversion Hoff as [|? ? He Hevs]; subst.
    destruct (step Config gettext e g) as [g'|msg] eqn:E.
    + simpl. f_equal. apply IH; [|assumption].
      rewrite (step_units_combo _ _ _ E).
      destruct e; first [exact Hin | exact He].
    + exfalso. destruct e; simpl in E; try discriminate.
      unfold change_from_button in E.
      destruct (shift_of_unit _ _ _ _) eqn:S.
      * destruct (0 <? dir)%Z; discriminate.
      * apply shift_of_unit_None in S. contradiction.
Qed.

Lemma init_units_combo g :
  value_changed_slots g = [] ->
  units_combo (init gettext g) = gettext "sample".
Proof.
  intros Hs. now destruct (init_shape gettext g Hs) as (x & -> & _).
Qed.

(** X6.  The fatal branch of [change_from_button] cannot be reached through
    the widget: the constructor makes the first unit string the active text,
    and as long as the active text is only changed to one of the unit strings
    the combo was filled with, no sequence of operations aborts; each of its
    operations returns. *)
Theorem buttons_never_abort (sr psz : samplepos_t) (evs : list (event L T)) :
  Forall (offers_units gettext) evs ->
  (forall l : L,
     length
       (states_after Config gettext evs (TimeCtlGUI_Latent gettext l sr psz))
     = length evs) /\
  (forall t : T,
     length
       (states_after Config gettext evs (TimeCtlGUI_TailTime gettext t sr psz))
     = length evs).
Proof.
  intros Hoff. split.
  - intros l. apply states_after_no_abort; [|assumption].
    unfold TimeCtlGUI_Latent. rewrite init_units_combo by reflexivity.
    left; reflexivity.
  - intros t. apply states_after_no_abort; [|assumption].
    unfold TimeCtlGUI_TailTime. rewrite init_units_combo by reflexivity.
    left; reflexivity.
Qed.

(** *** The states a constructed widget reaches *)

Lemma reachable_Latent (sr psz : samplepos_t) (evs : list (event L T)) (l : L) :
  0 <= sr ->
  let g0 : TimeCtlGUI L T := TimeCtlGUI_Latent gettext l sr psz in
  Forall
    (fun g =>
       wiring g = (sr, psz, [slot_finish], (true, false)) /\
       _ignore_change g = false /\
       bounded_by 0%Q (double_of_samples sr) g)
    (g0 :: states_after Config gettext evs g0).
Proof.
  intros Hsr g0.
  assert (H1 : (0 <= double_of_samples sr)%Q) by (apply double_of_samples_nonneg; lia).
  assert (W0 : wiring g0 = (sr, psz, [slot_finish], (true, false))).
  { unfold g0, TimeCtlGUI_Latent. now rewrite init_wiring. }
  assert (G0 : _ignore_change g0 = false) by apply init_guard.
  assert (B0 : bounded_by 0%Q (double_of_samples sr) g0).
  { apply init_bounded; [assumption|].
    repeat split; simpl; [apply Qle_refl | assumption]. }
  constructor; [split; [exact W0 | split; [exact G0 | exact B0]]|].
  apply Forall_and; [|apply Forall_and].
  - rewrite <- W0. apply states_after_wiring.
  - now apply states_after_guard.
  - now apply states_after_bounded.
Qed.

Lemma reachable_TailTime (sr psz : samplepos_t) (evs : list (event L T))
    (t : T) :
  0 <= sr -> in_int64 (20 * sr) ->
  let g0 : TimeCtlGUI L T := TimeCtlGUI_TailTime gettext t sr psz in
  Forall
    (fun g =>
       wiring g = (sr, psz, [slot_finish], (false, true)) /\
       _ignore_change g = false /\
       bounded_by 0%Q (double_of_samples (20 * sr)) g)
    (g0 :: states_after Config gettext evs g0).
Proof.
  intros Hsr H64 g0.
  assert (H1 : (0 <= double_of_samples (20 * sr))%Q)
    by (apply double_of_samples_nonneg; lia).
  assert (W0 : wiring g0 = (sr, psz, [slot_finish], (false, true))).
  { unfold g0, TimeCtlGUI_TailTime. now rewrite init_wiring. }
  assert (G0 : _ignore_change g0 = false) by apply init_guard.
  assert (B0 : bounded_by 0%Q (double_of_samples (20 * sr)) g0).
  { unfold g0, TimeCtlGUI_TailTime. rewrite (int64_mul_in_range 20 sr H64).
    apply init_bounded; [assumption|].
    repeat split; simpl; [apply Qle_refl | assumption]. }
  constructor; [split; [exact W0 | split; [exact G0 | exact B0]]|].
  apply Forall_and; [|apply Forall_and].
  - rewrite <- W0. apply states_after_wiring.
  - now apply states_after_guard.
  - now apply states_after_bounded.
Qed.

Lemma samplepos_of_double_bounds (q : double) (m : Z) :
  (0 <= q)%Q -> (q <= inject_Z m)%Q -> 0 <= samplepos_of_double q <= m.
Proof.
  destruct q as [n d]. unfold Qle, samplepos_of_double; simpl.
  intros H0 H1. rewrite Z.mul_1_r in H0, H1.
  rewrite Z.quot_div_nonneg by lia. split.
  - apply Z.div_pos; lia.
  - apply Z.div_le_upper_bound; lia.
Qed.

(** X7.  What [finish] hands to the external object is always a sample count
    within the range of the adjustment: in every state a widget reaches,
    [finish] calls [set_user_latency] with a value between 0 and
    [sample_rate], resp. [set_user_tailtime] with a value between 0 and
    [20 * sample_rate].  The bound of the range is a sample count of at most
    53 bits, which its conversion to [double] leaves as it is. *)
Theorem pushed_value_in_range (sr psz : samplepos_t)
    (evs : list (event L T)) :
  0 <= sr ->
  (sr <= 2 ^ 53 ->
   forall l : L,
     let g0 : TimeCtlGUI L T := TimeCtlGUI_Latent gettext l sr psz in
     Forall
       (fun g =>
          exists l' n,
            _latent g = Some l' /\
            finish g = set_latent (Some (set_user_latency n l')) g /\
            0 <= n <= sr)
       (g0 :: states_after Config gettext evs g0)) /\
  (in_int64 (20 * sr) -> 20 * sr <= 2 ^ 53 ->
   forall t : T,
     let g0 : TimeCtlGUI L T := TimeCtlGUI_TailTime gettext t sr psz in
     Forall
       (fun g =>
          exists t' n,
            _tailtime g = Some t' /\
            finish g = set_tailtime (Some (set_user_tailtime n t')) g /\
            0 <= n <= 20 * sr)
       (g0 :: states_after Config gettext evs g0)).
Proof.
  intros Hsr. split.
  - intros H53 l g0.
    eapply Forall_impl; [|apply (reachable_Latent sr psz evs l Hsr)].
    intros g (W & G & (_ & _ & B1 & B2)).
    unfold wiring, wraps in W. injection W as _ _ _ Wl Wt.
    destruct (_latent g) as [l'|] eqn:Hl; [|discriminate].
    exists l', (samplepos_of_double (Adjustment.value (adjustment g))).
    split; [reflexivity|]. split.
    + unfold finish. now rewrite G, Hl.
    + rewrite double_of_samples_exact in B2 by lia.
      now apply samplepos_of_double_bounds.
  - intros H64 H53 t g0.
    eapply Forall_impl; [|apply (reachable_TailTime sr psz evs t Hsr H64)].
    intros g (W & G & (_ & _ & B1 & B2)).
    unfold wiring, wraps in W. injection W as _ _ _ Wl Wt.
    destruct (_latent g) as [l'|] eqn:Hl; [discriminate|].
    destruct (_tailtime g) as [t'|] eqn:Ht; [|discriminate].
    exists t', (samplepos_of_double (Adjustment.value (adjustment g))).
    split; [reflexivity|]. split.
    + unfold finish. now rewrite G, Hl, Ht.
    + rewrite double_of_samples_exact in B2 by lia.
      now apply samplepos_of_double_bounds.
Qed.

(** *** The buttons at the bounds *)

Lemma shift_of_unit_nonneg sr psz u (shift : double) :
  0 <= sr -> 0 <= psz ->
  shift_of_unit gettext sr psz u = Some shift -> (0 <= shift)%Q.
Proof.
  intros Hsr Hpsz. unfold shift_of_unit.
  destruct (_ =? _)%string; [intros [= <-]; discriminate|].
  destruct (_ =? _)%string.
  { intros [= <-]. apply binary64_nonneg.
    pose proof (double_of_samples_nonneg sr Hsr) as D.
    unfold Qdiv. apply Qmult_le_0_compat; [exact D | vm_compute; discriminate]. }
  destruct (_ =? _)%string; [|discriminate].
  intros [= <-]. apply double_of_samples_nonneg. assumption.
Qed.

Lemma CLAMP_cases x low high :
  (high < x /\ Adjustment.CLAMP x low high = high)%Q \/
  (x <= high /\ x < low /\ Adjustment.CLAMP x low high = low)%Q \/
  (x <= high /\ low <= x /\ Adjustment.CLAMP x low high = x)%Q.
Proof.
  unfold Adjustment.CLAMP.
  destruct (Adjustment.Qgt_bool x high) eqn:Hgt.
  - left. apply AdjustmentFacts.Qgt_bool_true in Hgt. now split.
  - apply AdjustmentFacts.Qgt_bool_false in Hgt. right.
    destruct (Adjustment.Qlt_bool x low) eqn:Hlt.
    + left. unfold Adjustment.Qlt_bool in Hlt.
      destruct (x ?= low)%Q eqn:C; try discriminate.
      apply Qlt_alt in C. now repeat split.
    + right. apply AdjustmentFacts.Qlt_bool_false in Hlt. now repeat split.
Qed.

(** X8.  The buttons move the value in one direction only and stop at the
    bounds.  For a unit string of the combo, sample rate and period size not
    negative and a value, a [double], within the bounds, [change_from_button]
    returns; with [dir > 0] the value does not decrease and stays at most
    [upper], and at [upper] the call leaves the widget as it is, so nothing is
    handed to the external object; with [dir <= 0] the same holds downwards
    and at [lower]. *)
Theorem buttons_saturate (dir : Z) g :
  In (units_combo g) (unit_strings gettext) ->
  0 <= sample_rate g -> 0 <= period_size g ->
  is_double (Adjustment.value (adjustment g)) ->
  (Adjustment.lower (adjustment g) <= Adjustment.value (adjustment g))%Q ->
  (Adjustment.value (adjustment g) <= Adjustment.upper (adjustment g))%Q ->
  exists g',
    change_from_button gettext dir g = Returns g' /\
    (0 < dir ->
     (Adjustment.value (adjustment g) <= Adjustment.value (adjustment g'))%Q /\
     (Adjustment.value (adjustment g') <= Adjustment.upper (adjustment g))%Q /\
     ((Adjustment.value (adjustment g) == Adjustment.upper (adjustment g))%Q ->
      g' = g)) /\
    (dir <= 0 ->
     (Adjustment.value (adjustment g') <= Adjustment.value (adjustment g))%Q /\
     (Adjustment.lower (adjustment g) <= Adjustment.value (adjustment g'))%Q /\
     ((Adjustment.value (adjustment g) == Adjustment.lower (adjustment g))%Q ->
      g' = g)).
Proof.
  intros Hin Hsr Hpsz Hd Hlo Hup. unfold change_from_button.
  destruct (shift_of_unit gettext (sample_rate g) (period_size g)
              (units_combo g)) as [shift|] eqn:S.
  2:{ apply shift_of_unit_None in S. contradiction. }
  pose proof (shift_of_unit_nonneg _ _ _ _ Hsr Hpsz S) as Hs.
  set (v := Adjustment.value (adjustment g)) in *.
  set (lo := Adjustment.lower (adjustment g)) in *.
  set (up := Adjustment.upper (adjustment g)) in *.
  destruct (0 <? dir)%Z eqn:D.
  - apply Z.ltb_lt in D. eexists. split; [reflexivity|]. split; [|lia].
    intros _.
    assert (A : (v <= double_add v shift)%Q).
    { rewrite <- (double_add_0 v Hd) at 1. now apply double_add_mono. }
    pose proof (set_value_value (double_add v shift) g) as V.
    fold lo up in V. revert A V. generalize (double_add v shift). intros x A V.
    destruct (CLAMP_cases x lo up) as [(C1 & E) | [(C1 & C2 & E) | (C1 & C2 & E)]];
      rewrite E in V.
    + repeat split; try (rewrite V; lra).
      intros Hv. apply set_value_fixed. fold lo up v. rewrite E. lra.
    + exfalso. lra.
    + repeat split; try (rewrite V; lra).
      intros Hv. apply set_value_fixed. fold lo up v. rewrite E. lra.
  - apply Z.ltb_ge in D. eexists. split; [reflexivity|]. split; [lia|].
    intros _.
    assert (A : (double_sub v shift <= v)%Q).
    { rewrite <- (double_sub_0 v Hd) at 2. now apply double_sub_mono. }
    pose proof (set_value_value (double_sub v shift) g) as V.
    fold lo up in V. revert A V. generalize (double_sub v shift). intros x A V.
    destruct (CLAMP_cases x lo up) as [(C1 & E) | [(C1 & C2 & E) | (C1 & C2 & E)]];
      rewrite E in V.
    + exfalso. lra.
    + repeat split; try (rewrite V; lra).
      intros Hv. apply set_value_fixed. fold lo up v. rewrite E. lra.
    + repeat split; try (rewrite V; lra).
      intros Hv. apply set_value_fixed. fold lo up v. rewrite E. lra.
Qed.

(** *** The value a constructor and [reset] leave *)

Lemma value_set_capped (v : double) (m : double) g :
  (Adjustment.lower (adjustment g) <= Adjustment.upper (adjustment g))%Q ->
  (Adjustment.lower (adjustment g) <= Adjustment.value (adjustment g))%Q ->
  (Adjustment.value (adjustment g) <= m)%Q ->
  (Adjustment.lower (adjustment g) <= m)%Q ->
  (v <= m)%Q ->
  (Adjustment.lower (adjustment g) <= value_set v g)%Q /\
  (value_set v g <= m)%Q.
Proof.
  intros Hlu Hlv Hvm Hlm Hv. unfold value_set; cbv zeta.
  destruct (Qeq_bool _ _); [now split|]. split.
  - now apply AdjustmentFacts.CLAMP_bounds.
  - now apply AdjustmentFacts.CLAMP_le.
Qed.

(** X9.  Whatever signal value the external object reports, a freshly
    constructed widget shows a value between 0 and [sample_rate]: [init]
    limits the signal value to [sample_rate] for both kinds of widget, also
    for a [TailTime], whose adjustment reaches up to [20 * sample_rate]. *)
Theorem initial_value_capped (sr psz : samplepos_t) :
  0 <= sr ->
  (forall l : L,
     let g0 : TimeCtlGUI L T := TimeCtlGUI_Latent gettext l sr psz in
     (0 <= Adjustment.value (adjustment g0))%Q /\
     (Adjustment.value (adjustment g0) <= double_of_samples sr)%Q) /\
  (in_int64 (20 * sr) ->
   forall t : T,
     let g0 : TimeCtlGUI L T := TimeCtlGUI_TailTime gettext t sr psz in
     (0 <= Adjustment.value (adjustment g0))%Q /\
     (Adjustment.value (adjustment g0) <= double_of_samples sr)%Q).
Proof.
  intros Hsr.
  assert (H1 : (0 <= double_of_samples sr)%Q) by (apply double_of_samples_nonneg; lia).
  assert (H20 : (0 <= double_of_samples (20 * sr))%Q)
    by (apply double_of_samples_nonneg; lia).
  split.
  - intros l g0. unfold g0, TimeCtlGUI_Latent.
    match goal with |- context [init gettext ?r] => set (g := r) end.
    destruct (init_shape gettext g eq_refl) as (x & E & [Hx | (Hl & _)]);
      [|discriminate Hl].
    rewrite E, Hx. simpl Adjustment.value.
    apply (value_set_capped _ (double_of_samples sr) g); simpl;
      try assumption; try apply Qle_refl.
    apply double_of_samples_le. lia.
  - intros H64 t g0. unfold g0, TimeCtlGUI_TailTime.
    rewrite (int64_mul_in_range 20 sr H64).
    match goal with |- context [init gettext ?r] => set (g := r) end.
    destruct (init_shape gettext g eq_refl) as (x & E & [Hx | (_ & Ht & _)]);
      [|discriminate Ht].
    rewrite E, Hx. simpl Adjustment.value.
    apply (value_set_capped _ (double_of_samples sr) g);
      cbn [g adjustment Adjustment.lower Adjustment.upper Adjustment.value
           Adjustment.make]; try assumption; try apply Qle_refl.
    apply double_of_samples_le.
    cbn [g sample_rate _latent _tailtime]. lia.
Qed.

(** X10.  [reset] brings a latency widget back to what its constructor
    shows: in every state a [Latent] widget reaches, the value [reset] leaves
    in the adjustment is the value a widget freshly constructed for the same
    object, with its override cleared, starts with. *)
Theorem reset_shows_constructed_value (sr psz : samplepos_t)
    (evs : list (event L T)) (l0 : L) :
  0 <= sr ->
  let g0 : TimeCtlGUI L T := TimeCtlGUI_Latent gettext l0 sr psz in
  Forall
    (fun g =>
       exists l,
         _latent g = Some l /\
         forall psz' : samplepos_t,
           (Adjustment.value (adjustment (reset Config g)) ==
            Adjustment.value
              (adjustment
                 (TimeCtlGUI_Latent gettext (unset_user_latency l) sr psz'
                  : TimeCtlGUI L T)))%Q)
    (g0 :: states_after Config gettext evs g0).
Proof.
  intros Hsr g0.
  eapply Forall_impl; [|apply (reachable_Latent sr psz evs l0 Hsr)].
  intros g (W & G & (Blo & Bup & _ & _)).
  unfold wiring, wraps in W. injection W as Wsr _ _ Wl _.
  destruct (_latent g) as [l|] eqn:Hl; [|discriminate].
  exists l. split; [reflexivity|]. intros psz'.
  set (l' := unset_user_latency l).
  set (pulled := double_of_samples (Z.min sr (signal_latency l'))).
  assert (E1 : (Adjustment.value (adjustment (reset Config g)) ==
                Adjustment.CLAMP pulled 0 (double_of_samples sr))%Q).
  { unfold reset. rewrite Hl, Wsr. fold l' pulled.
    rewrite Unwinder_set_value. simpl Adjustment.value.
    rewrite (value_set_eq pulled (set_latent (Some l') g)). simpl.
    now rewrite Blo, Bup. }
  rewrite E1. unfold TimeCtlGUI_Latent.
  match goal with |- context [init gettext ?r] => set (r0 := r) end.
  destruct (init_shape gettext r0 eq_refl) as (x & E & [Hx | (Hn & _)]);
    [|discriminate Hn].
  rewrite E, Hx. simpl Adjustment.value.
  rewrite (value_set_eq _ r0). reflexivity.
Qed.

End Further.

(** * The further properties on the sample widgets *)

Lemma Controllable_set_get_value_witness :
  (Controllable_lower Sample.latency_gui
   <= Controllable_get_value Sample.latency_gui)%Q /\
  (Controllable_get_value Sample.latency_gui
   <= Controllable_upper Sample.latency_gui)%Q /\
  Controllable_set_value (Controllable_get_value Sample.latency_gui)
    Sample.latency_gui
  = Sample.latency_gui.
Proof.
  assert (Hlo : (Controllable_lower Sample.latency_gui
                 <= Controllable_get_value Sample.latency_gui)%Q)
    by (vm_compute; discriminate).
  assert (Hup : (Controllable_get_value Sample.latency_gui
                 <= Controllable_upper Sample.latency_gui)%Q)
    by (vm_compute; discriminate).
  split; [exact Hlo|]. split; [exact Hup|].
  exact (Controllable_set_get_value Sample.latency_gui Hlo Hup).
Defined.

Lemma Controllable_set_value_pushes_witness :
  _ignore_change Sample.latency_gui = false /\
  value_changed_slots Sample.latency_gui = [slot_finish] /\
  Controllable_set_value 100%Q Sample.latency_gui
  = set_latent (Some (set_user_latency 100 Sample.a_latent))
      (set_adjustment
         (Adjustment.with_value 100%Q (adjustment Sample.latency_gui))
         Sample.latency_gui).
Proof.
  split; [reflexivity|]. split; [reflexivity|].
  assert (N : ~ (Adjustment.CLAMP 100
                   (Adjustment.lower (adjustment Sample.latency_gui))
                   (Adjustment.upper (adjustment Sample.latency_gui))
                 == Adjustment.value (adjustment Sample.latency_gui))%Q)
    by (vm_compute; discriminate).
  exact (proj1 (proj2 (Controllable_set_value_pushes 100%Q Sample.latency_gui
                         eq_refl eq_refl)
                  N)
           Sample.a_latent eq_refl).
Defined.

Lemma wiring_is_fixed_witness :
  Forall
    (fun g =>
       sample_rate g = 48000 /\ period_size g = 1024 /\
       value_changed_slots g = [slot_finish] /\
       _latent g <> None /\ _tailtime g = None)
    (Sample.latency_gui
     :: states_after Sample.Config Sample.C_locale
          [ev_change_from_button 1; ev_reset; ev_set_value 7%Q; ev_finish]
          Sample.latency_gui).
Proof.
  exact (proj1 (wiring_is_fixed Sample.Config Sample.C_locale 48000 1024 _)
           Sample.a_latent).
Defined.

Lemma buttons_never_abort_witness :
  Forall (offers_units (L := Sample.latent_obj) (T := Sample.tail_obj)
            Sample.C_locale)
    [ev_units_combo "msec"; ev_change_from_button 1; ev_reset;
     ev_units_combo "period"; ev_change_from_button (-1)] /\
  length
    (states_after Sample.Config Sample.C_locale
       [ev_units_combo "msec"; ev_change_from_button 1; ev_reset;
        ev_units_combo "period"; ev_change_from_button (-1)]
       Sample.latency_gui)
  = 5%nat.
Proof.
  assert (Hoff : Forall (offers_units (L := Sample.latent_obj)
                           (T := Sample.tail_obj) Sample.C_locale)
                   [ev_units_combo "msec"; ev_change_from_button 1; ev_reset;
                    ev_units_combo "period"; ev_change_from_button (-1)]).
  { apply Forall_cons; [right; left; reflexivity|].
    apply Forall_cons; [exact I|]. apply Forall_cons; [exact I|].
    apply Forall_cons; [right; right; left; reflexivity|].
    apply Forall_cons; [exact I|]. apply Forall_nil. }
  split; [exact Hoff|].
  exact (proj1 (buttons_never_abort Sample.Config Sample.C_locale 48000 1024 _
                  Hoff)
           Sample.a_latent).
Defined.

Lemma pushed_value_in_range_witness :
  0 <= 48000 /\ 48000 <= 2 ^ 53 /\
  Forall
    (fun g =>
       exists l' n,
         _latent g = Some l' /\
         finish g = set_latent (Some (set_user_latency n l')) g /\
         0 <= n <= 48000)
    (Sample.latency_gui
     :: states_after Sample.Config Sample.C_locale
          [ev_set_value 50000%Q; ev_units_combo "msec";
           ev_change_from_button (-1)]
          Sample.latency_gui).
Proof.
  assert (Hsr : 0 <= 48000) by lia.
  assert (H53 : 48000 <= 2 ^ 53) by lia.
  split; [exact Hsr|]. split; [exact H53|].
  exact (proj1 (pushed_value_in_range Sample.Config Sample.C_locale 48000 1024
                  _ Hsr)
           H53 Sample.a_latent).
Defined.

Lemma buttons_saturate_witness :
  In (units_combo Sample.latency_gui) (unit_strings Sample.C_locale) /\
  0 <= sample_rate Sample.latency_gui /\
  0 <= period_size Sample.latency_gui /\
  is_double (Adjustment.value (adjustment Sample.latency_gui)) /\
  (Adjustment.lower (adjustment Sample.latency_gui)
   <= Adjustment.value (adjustment Sample.latency_gui))%Q /\
  (Adjustment.value (adjustment Sample.latency_gui)
   <= Adjustment.upper (adjustment Sample.latency_gui))%Q /\
  exists g',
    change_from_button Sample.C_locale 1 Sample.latency_gui = Returns g'.
Proof.
  assert (Hin : In (units_combo Sample.latency_gui)
                  (unit_strings Sample.C_locale)) by (left; reflexivity).
  assert (Hsr : 0 <= sample_rate Sample.latency_gui) by (simpl; lia).
  assert (Hpsz : 0 <= period_size Sample.latency_gui) by (simpl; lia).
  assert (Hd : is_double (Adjustment.value (adjustment Sample.latency_gui)))
    by (vm_compute; reflexivity).
  assert (Hlo : (Adjustment.lower (adjustment Sample.latency_gui)
                 <= Adjustment.value (adjustment Sample.latency_gui))%Q)
    by (vm_compute; discriminate).
  assert (Hup : (Adjustment.value (adjustment Sample.latency_gui)
                 <= Adjustment.upper (adjustment Sample.latency_gui))%Q)
    by (vm_compute; discriminate).
  repeat (split; [assumption|]).
  destruct (buttons_saturate Sample.C_locale 1 Sample.latency_gui
              Hin Hsr Hpsz Hd Hlo Hup) as (g' & E & _).
  exists g'. exact E.
Defined.

Lemma initial_value_capped_witness :
  0 <= 48000 /\ in_int64 (20 * 48000) /\
  (0 <= Adjustment.value (adjustment Sample.tailtime_gui))%Q /\
  (Adjustment.value (adjustment Sample.tailtime_gui)
   <= double_of_samples 48000)%Q.
Proof.
  assert (Hsr : 0 <= 48000) by lia.
  assert (H64 : in_int64 (20 * 48000))
    by (unfold in_int64, INT64_MIN, INT64_MAX; lia).
  split; [exact Hsr|]. split; [exact H64|].
  exact (proj2 (initial_value_capped (L := Sample.latent_obj) Sample.C_locale
                  48000 1024 Hsr)
           H64 Sample.a_tail).
Defined.

Lemma reset_shows_constructed_value_witness :
  0 <= 48000 /\
  Forall
    (fun g =>
       exists l,
         _latent g = Some l /\
         forall psz' : samplepos_t,
           (Adjustment.value (adjustment (reset Sample.Config g)) ==
            Adjustment.value
              (adjustment
                 (TimeCtlGUI_Latent Sample.C_locale (unset_user_latency l)
                    48000%Z psz'
                  : TimeCtlGUI Sample.latent_obj Sample.tail_obj)))%Q)
    (Sample.latency_gui
     :: states_after Sample.Config Sample.C_locale
          [ev_set_value 300%Q; ev_refresh] Sample.latency_gui).
Proof.
  assert (Hsr : 0 <= 48000) by lia.
  split; [exact Hsr|].
  exact (reset_shows_constructed_value Sample.Config Sample.C_locale 48000 1024
           _ Sample.a_latent Hsr).
Defined.
